(** * scripts/get-cordova-plugins-names.js

    A shallow embedding of the plugin inventory script and the proofs of the
    properties its specification states.

    The script has three stages: [readPluginInfoFromDisk] turns the declared
    plugin list into records, [getNewestVersionsInfoFromNpm] asks the registry
    for the newest version of each record, and [postProcessPluginsInfo] builds
    the table and the warnings.  [main] chains them with promises.

    What the script takes from other packages is a parameter of the model:
    the file system and [path.join] ([Disk]), the registry lookup
    ([npmViewPromise]), the order in which the lookups settle, and the
    [semver] comparisons ([Semver.lib]).  [clc] colours are kept as a [style]
    tag on the text, and the table is the list of its rows. *)

From Stdlib Require Import String Ascii ZArith Lia.
From stdpp Require Import base list strings.

Open Scope string_scope.
Open Scope list_scope.

(** ** JavaScript values and string methods used by the script *)

Module JS.

(** An [Error] object: its [name] and its [message]. *)
Record error := Error { err_name : string; err_message : string }.

Definition TypeError (msg : string) : error := Error "TypeError" msg.

(** [Error.prototype.toString]. *)
Definition toString (e : error) : string :=
  if decide (err_name e = "") then err_message e
  else if decide (err_message e = "") then err_name e
  else err_name e +:+ ": " +:+ err_message e.

(** A computation that returns a value ([inr]) or throws ([inl]). *)
Definition result (A : Type) : Type := error + A.

Definition throw {A : Type} (e : error) : result A := inl e.

#[global] Instance result_ret : MRet result := fun A x => inr x.

#[global] Instance result_bind : MBind result := fun A B f m =>
  match m with
  | inl e => inl e
  | inr a => f a
  end.

(** A property that holds a string or is [undefined]/[null] ([None]). *)
Definition value := option string.

(** Truthiness of such a property: [undefined], [null] and the empty
    string are falsy. *)
Definition truthy (v : value) : bool :=
  match v with
  | Some s => negb (String.eqb s "")
  | None => false
  end.

(** [a || b]. *)
Definition or (a b : value) : value := if truthy a then a else b.

(** [a || lit] with a string literal on the right. *)
Definition or_lit (a : value) (lit : string) : string :=
  match a with
  | Some s => if truthy a then s else lit
  | None => lit
  end.

(** [v + ...]: the string a property of a declaration turns into under
    concatenation; an absent property reads [undefined]. *)
Definition concat_value (v : value) : string :=
  match v with
  | Some s => s
  | None => "undefined"
  end.

(** [s.split(sep)] for a separator of one character. *)
Fixpoint split (sep : ascii) (s : string) : list string :=
  match s with
  | EmptyString => [EmptyString]
  | String c s' =>
      if Ascii.eqb c sep then EmptyString :: split sep s'
      else match split sep s' with
           | piece :: pieces => String c piece :: pieces
           | [] => [String c EmptyString]
           end
  end.

(** [s.indexOf(c)] for one character: the first position, or [-1]. *)
Fixpoint indexOf (c : ascii) (s : string) : Z :=
  match s with
  | EmptyString => (-1)%Z
  | String d s' =>
      if Ascii.eqb d c then 0%Z
      else let i := indexOf c s' in
           if (i <? 0)%Z then (-1)%Z else (i + 1)%Z
  end.

End JS.

Import JS.

(** ** Words of the specification about strings

    These follow the specification's wording, to be compared with what the
    script computes. *)

Module Spec.

(** The substring before the first [sep]; the whole string without one. *)
Fixpoint before_first (sep : ascii) (s : string) : string :=
  match s with
  | EmptyString => EmptyString
  | String c s' =>
      if Ascii.eqb c sep then EmptyString else String c (before_first sep s')
  end.

(** The substring after the first [sep]; absent without one. *)
Fixpoint after_first (sep : ascii) (s : string) : option string :=
  match s with
  | EmptyString => None
  | String c s' => if Ascii.eqb c sep then Some s' else after_first sep s'
  end.

(** How many times [sep] occurs. *)
Fixpoint occurrences (sep : ascii) (s : string) : nat :=
  match s with
  | EmptyString => 0
  | String c s' =>
      (if Ascii.eqb c sep then 1 else 0) + occurrences sep s'
  end.

End Spec.

(** ** Data model *)

(** An entry of [cordovaPlugins]: a string, or an object with the optional
    string properties [locator], [id] and [version]. *)
Inductive declaration :=
| DeclString (s : string)
| DeclObject (locator id version : value).

(** The object built for each declaration (lines 103-110). *)
Record PluginRecord := PluginInfo {
  pluginName : string;
  pluginFolder : string;
  expectedVersion : value;
  installedVersionJson : value;
  installedVersionXml : value;
  newestVersion : value
}.

Definition set_installed (json xml : value) (p : PluginRecord) : PluginRecord :=
  {| pluginName := pluginName p;
     pluginFolder := pluginFolder p;
     expectedVersion := expectedVersion p;
     installedVersionJson := json;
     installedVersionXml := xml;
     newestVersion := newestVersion p |}.

Definition set_newestVersion (v : value) (p : PluginRecord) : PluginRecord :=
  {| pluginName := pluginName p;
     pluginFolder := pluginFolder p;
     expectedVersion := expectedVersion p;
     installedVersionJson := installedVersionJson p;
     installedVersionXml := installedVersionXml p;
     newestVersion := v |}.

(** ** Local inventory reader *)

(** The file system as the script sees it. *)
Record Disk := {
  (** [path.join] *)
  path_join : list string -> string;
  (** [fs.existsSync] *)
  existsSync : string -> bool;
  (** [require(file).version]: throws when the file does not parse *)
  require_version : string -> result value;
  (** [cheerio.load(fs.readFileSync(file), {xmlMode: true})('plugin').attr('version')] *)
  plugin_attr_version : string -> result value
}.

Section Reader.

Variable disk : Disk.
Variable ROOT : string.

(** Lines 38-45. *)
Definition getVersionFromJSON (pluginPgkJsonFile : string) : result value :=
  if existsSync disk pluginPgkJsonFile
  then require_version disk pluginPgkJsonFile
  else inr None.

(** Lines 51-61. *)
Definition getVersionFromXML (pluginXMLFile : string) : result value :=
  if existsSync disk pluginXMLFile
  then plugin_attr_version disk pluginXMLFile
  else inr None.

(** [pluginInfo.id]: a string declaration has no such property. *)
Definition decl_id (pluginInfo : declaration) : value :=
  match pluginInfo with
  | DeclString _ => None
  | DeclObject _ id _ => id
  end.

(** Lines 79-91: the text that is split into name and version. *)
Definition pluginNameAndVersion (pluginInfo : declaration) : string :=
  match pluginInfo with
  | DeclObject locator id version =>
      match locator with
      | Some l =>
          if truthy locator && (indexOf "@" l >? -1)%Z
          then l
          else concat_value id +:+ "@" +:+ or_lit version ""
      | None => concat_value id +:+ "@" +:+ or_lit version ""
      end
  | DeclString s => s
  end.

(** Line 93. *)
Definition parsedName (pluginInfo : declaration) : string :=
  default "" (split "@" (pluginNameAndVersion pluginInfo) !! 0%nat).

(** Line 94. *)
Definition pluginExpectedVersion (pluginInfo : declaration) : value :=
  split "@" (pluginNameAndVersion pluginInfo) !! 1%nat.

(** Line 98. *)
Definition folderOf (pluginInfo : declaration) : string :=
  match decl_id pluginInfo with
  | Some i => if truthy (decl_id pluginInfo) then i else parsedName pluginInfo
  | None => parsedName pluginInfo
  end.

Definition pluginXmlFile (pluginInfo : declaration) : string :=
  path_join disk [ROOT; "plugins"; folderOf pluginInfo; "/plugin.xml"].

Definition pluginJSONFile (pluginInfo : declaration) : string :=
  path_join disk [ROOT; "plugins"; folderOf pluginInfo; "/package.json"].

(** The body of the [forEach] callback, lines 78-119, up to the [push]. *)
Definition readPlugin (pluginInfo : declaration) : result PluginRecord :=
  let currentPluginInfo :=
    {| pluginName := parsedName pluginInfo;
       pluginFolder := folderOf pluginInfo;
       expectedVersion := pluginExpectedVersion pluginInfo;
       installedVersionJson := None;
       installedVersionXml := None;
       newestVersion := None |} in
  if existsSync disk (pluginXmlFile pluginInfo) then
    json ← getVersionFromJSON (pluginJSONFile pluginInfo);
    xml ← getVersionFromXML (pluginXmlFile pluginInfo);
    inr (set_installed json xml currentPluginInfo)
  else inr currentPluginInfo.

(** Lines 72-123: [cordovaPlugins] is the list read from the project's
    package.json; the first file that does not parse ends the run. *)
Fixpoint readPluginInfoFromDisk (cordovaPlugins : list declaration)
  : result (list PluginRecord) :=
  match cordovaPlugins with
  | [] => inr []
  | pluginInfo :: rest =>
      currentPluginInfo ← readPlugin pluginInfo;
      allPluginsInfo ← readPluginInfoFromDisk rest;
      inr (currentPluginInfo :: allPluginsInfo)
  end.

End Reader.

(** ** The semver package

    The script calls [semver.gt], [semver.lt], [semver.gtr] and
    [semver.ltr].  The package is not part of the repository: the model takes
    it as a [lib].  Each call returns a boolean or throws (the package throws
    a [TypeError] on a string that is no version, or no range). *)

Module Semver.

Record lib := {
  (** [semver.compare(a, b)]: the precedence of [a] against [b] *)
  compare : string -> string -> result comparison;
  (** [semver.gtr(version, range)]: [version] is above every version the
      range allows *)
  gtr : string -> string -> result bool;
  (** [semver.ltr(version, range)]: [version] is below every version the
      range allows *)
  ltr : string -> string -> result bool
}.

(** [semver.gt(a, b)] is [compare(a, b) > 0]. *)
Definition gt (S : lib) (a b : string) : result bool :=
  c ← compare S a b;
  mret (match c with Gt => true | _ => false end).

(** [semver.lt(a, b)] is [compare(a, b) < 0]. *)
Definition lt (S : lib) (a b : string) : result bool :=
  c ← compare S a b;
  mret (match c with Lt => true | _ => false end).

End Semver.

(** ** Reconciler and reporter *)

(** [clc] styles used by the script. *)
Inductive style := GreenBold | RedBold | YellowBold | Yellow.

(** A string as it is printed: as it is, or wrapped by a [clc] style. *)
Inductive text :=
| Plain (s : string)
| Styled (c : style) (s : string).

Definition text_string (t : text) : string :=
  match t with
  | Plain s => s
  | Styled _ s => s
  end.

Definition text_style (t : text) : option style :=
  match t with
  | Plain _ => None
  | Styled c _ => Some c
  end.

(** A local variable that holds a property or its styled form. *)
Definition plain (v : value) : option text := Plain <$> v.

(** Truthiness of such a variable: a styled string holds the escape codes
    and is never empty. *)
Definition truthy_text (v : option text) : bool :=
  match v with
  | Some (Plain s) => negb (String.eqb s "")
  | Some (Styled _ _) => true
  | None => false
  end.

(** [v || '-'] at lines 188-190. *)
Definition or_dash (v : option text) : text :=
  match v with
  | Some t => if truthy_text v then t else Plain "-"
  | None => Plain "-"
  end.

(** The string held by a truthy property. *)
Definition the (v : value) : string := default "" v.

(** The [cli-table2] table: its head and the rows pushed so far. *)
Record Table := { head : list string; rows : list (list text) }.

(** What [console.log] receives. *)
Inductive output :=
| Log (t : text)
| LogStack (e : error)
| LogTable (t : Table).

(** A computation over a mutable state [S] that returns or throws; the
    state written before a throw stays written. *)
Definition SE (S A : Type) : Type := S -> S * result A.

#[global] Instance SE_ret {S : Type} : MRet (SE S) := fun A x s => (s, inr x).

#[global] Instance SE_bind {S : Type} : MBind (SE S) := fun A B f m s =>
  match m s with
  | (s', inl e) => (s', inl e)
  | (s', inr a) => f a s'
  end.

Definition lift {S A : Type} (r : result A) : SE S A := fun s => (s, r).

(** [l.forEach(f)]: a throw ends the loop. *)
Fixpoint forEach {S A : Type} (f : A -> SE S unit) (l : list A) : SE S unit :=
  match l with
  | [] => mret tt
  | x :: l' => f x ;; forEach f l'
  end.

Definition nl : string := String "010" "".
Definition dquote : string := String "034" "".

(** The two arrays [postProcessPluginsInfo] fills. *)
Record arrays := { table : list (list text); warnings : list string }.

Definition push_warning (msg : string) : SE arrays unit := fun st =>
  ({| table := table st; warnings := warnings st ++ [msg] |}, inr tt).

Definition push_row (r : list text) : SE arrays unit := fun st =>
  ({| table := table st ++ [r]; warnings := warnings st |}, inr tt).

Section Reporter.

Variable semver : Semver.lib.

(** Lines 149-150. *)
Definition warning1 (name jsonVersion xmlVersion : string) : string :=
  name +:+ ": version in package.json(" +:+ jsonVersion +:+
  ") does not match plugin.xml(" +:+ xmlVersion +:+
  "), assuming version in package.json.".

(** Lines 156-158. *)
Definition warning2 (name folder : string) : string :=
  name +:+ ": plugin npm name does not match its id from plugin.xml (" +:+
  folder +:+ ")!".

(** The body of the [forEach] callback, lines 143-191. *)
Definition processPlugin (currPluginInfo : PluginRecord) : SE arrays unit :=
  let name := pluginName currPluginInfo in
  let jsonVersion := installedVersionJson currPluginInfo in
  let xmlVersion := installedVersionXml currPluginInfo in
  (if truthy jsonVersion && truthy xmlVersion
      && bool_decide (jsonVersion <> xmlVersion)
   then push_warning (warning1 name (the jsonVersion) (the xmlVersion))
   else mret tt) ;;
  name ← (if bool_decide (pluginName currPluginInfo <> pluginFolder currPluginInfo)
          then push_warning (warning2 name (pluginFolder currPluginInfo)) ;;
               mret (name +:+ " (" +:+ pluginFolder currPluginInfo +:+ ")")
          else mret name);
  let installed := JS.or (installedVersionJson currPluginInfo)
                         (installedVersionXml currPluginInfo) in
  let newest := newestVersion currPluginInfo in
  let expected := expectedVersion currPluginInfo in
  newest' ← (if truthy newest && truthy installed then
               b ← lift (Semver.gt semver (the newest) (the installed));
               if b : bool then mret (Some (Styled GreenBold (the newest)))
               else
                 b ← lift (Semver.lt semver (the newest) (the installed));
                 if b : bool then mret (Some (Styled RedBold (the newest)))
                 else mret (plain newest)
             else mret (plain newest));
  '(installed', expected') ←
    (if truthy expected && truthy installed then
       b ← lift (Semver.gtr semver (the installed) (the expected));
       if b : bool
       then mret (Some (Styled RedBold (the installed)), plain expected)
       else
         b ← lift (Semver.ltr semver (the installed) (the expected));
         if b : bool
         then mret (plain installed, Some (Styled RedBold (the expected)))
         else mret (plain installed, plain expected)
     else mret (plain installed, plain expected));
  push_row [Plain name; or_dash expected'; or_dash installed'; or_dash newest'].

Definition notices : list output :=
  [ Log (Plain (nl +:+ "Note: if a plugin installed version was not detected, its id might differ from npm package name."));
    Log (Plain ("In this case, you need to specify the plugin entry in package.json as" +:+ nl));
    Log (Plain ("  {locator: " +:+ dquote +:+ "npmname@version" +:+ dquote +:+
                ", id: " +:+ dquote +:+ "plugin.id.from.configxml" +:+ dquote +:+ "}"));
    Log (Plain (nl +:+ "for the plugin to be properly detected."));
    Log (Styled Yellow (nl +:+ "Consider sending a PR to the plugin's maintainer to fix any issues.")) ].

(** Lines 129-209, over the lines printed so far. *)
Definition postProcessPluginsInfo (allPluginsInfo : list PluginRecord)
  : SE (list output) Table := fun console =>
  let console := console ++ [Log (Plain "")] in
  let '(st, r) := forEach processPlugin allPluginsInfo
                    {| table := []; warnings := [] |} in
  match r with
  | inl e => (console, inl e)
  | inr _ =>
      let console :=
        console ++ map (fun msg => Log (Styled YellowBold msg)) (warnings st) in
      let console := console ++ notices in
      (console,
       inr {| head := ["Plugin name"; "Expected"; "Installed"; "Newest"];
              rows := table st |})
  end.

End Reporter.

(** ** Promises *)

(** A promise at the end of the run: fulfilled, rejected, or never settled. *)
Inductive settled (A : Type) :=
| Fulfilled (a : A)
| Rejected (e : error)
| Pending.

Arguments Fulfilled {A} a.
Arguments Rejected {A} e.
Arguments Pending {A}.

(** How a run of the script ends: with an exception nobody caught, or with
    the promise chain in some state. *)
Inductive run :=
| Uncaught (e : error)
| Chain (p : settled unit).

(** The two streams of the process. *)
Record world := { stdout : list output; stderr : list string }.

Definition console_log (o : output) : SE world unit := fun w =>
  ({| stdout := stdout w ++ [o]; stderr := stderr w |}, inr tt).

Definition stderr_write (s : string) (w : world) : world :=
  {| stdout := stdout w; stderr := stderr w ++ [s] |}.

(** A computation over the console, run in the process. *)
Definition on_stdout {A : Type} (m : SE (list output) A) : SE world A := fun w =>
  let '(console, r) := m (stdout w) in
  ({| stdout := console; stderr := stderr w |}, r).

(** [p.then(f)]: [f] runs only when [p] is fulfilled; a throw in [f] rejects
    the new promise. *)
Definition then_ {A B : Type} (f : A -> SE world B) (p : world * settled A)
  : world * settled B :=
  match p with
  | (w, Fulfilled a) =>
      match f a w with
      | (w', inr b) => (w', Fulfilled b)
      | (w', inl e) => (w', Rejected e)
      end
  | (w, Rejected e) => (w, Rejected e)
  | (w, Pending) => (w, Pending)
  end.

(** [p.catch(h)]: [h] runs only when [p] is rejected. *)
Definition catch_ {A : Type} (h : error -> SE world A) (p : world * settled A)
  : world * settled A :=
  match p with
  | (w, Rejected e) =>
      match h e w with
      | (w', inr a) => (w', Fulfilled a)
      | (w', inl e') => (w', Rejected e')
      end
  | other => other
  end.

(** The first rejection among the promises [ps], taken in the order [order]
    in which they settle. *)
Fixpoint first_rejection {A : Type} (order : list nat) (ps : list (result A))
  : option error :=
  match order with
  | [] => None
  | k :: order' =>
      match ps !! k with
      | Some (inl e) => Some e
      | _ => first_rejection order' ps
      end
  end.

Fixpoint values {A : Type} (ps : list (result A)) : option (list A) :=
  match ps with
  | [] => Some []
  | inr a :: ps' => cons a <$> values ps'
  | inl _ :: _ => None
  end.

Definition all_settle (order : list nat) (n : nat) : bool :=
  forallb (fun k => bool_decide (k ∈ order)) (seq 0 n).

(** [Promise.all(ps)].  [ps] holds what each promise yields when it settles;
    [order] lists the promises that settle, in the order in which they do.
    The first rejection rejects the whole; it is fulfilled with all the
    values, in the order of [ps], once every promise is fulfilled; it stays
    pending while a promise never settles. *)
Definition Promise_all {A : Type} (order : list nat) (ps : list (result A))
  : settled (list A) :=
  match first_rejection order ps with
  | Some e => Rejected e
  | None =>
      if all_settle order (length ps)
      then match values ps with
           | Some vs => Fulfilled vs
           | None => Pending
           end
      else Pending
  end.

(** ** Registry lookup and [main] *)

Section Main.

Variable disk : Disk.
Variable ROOT : string.
Variable semver : Semver.lib.

(** [npmViewPromise(name)]: the newest version, or the failure of the
    lookup. *)
Variable npmViewPromise : string -> result string.

(** The order in which the lookups settle. *)
Variable order : list nat.

(** Line 216: what each lookup yields. *)
Definition allPromisesToNpm (allPluginsInfo : list PluginRecord)
  : list (result string) :=
  map (fun pluginEntry => npmViewPromise (pluginName pluginEntry)) allPluginsInfo.

(** Line 219: one dot for each lookup that is fulfilled. *)
Definition progress (ps : list (result string)) : list string :=
  flat_map (fun k => match ps !! k with
                     | Some (inr _) => if bool_decide (k ∈ order) then ["."] else []
                     | _ => []
                     end) (seq 0 (length ps)).

(** Lines 214-226. *)
Definition getNewestVersionsInfoFromNpm (allPluginsInfo : list PluginRecord)
  (w : world) : world * settled (list string) :=
  let w := stderr_write "fetching info from npm" w in
  let ps := allPromisesToNpm allPluginsInfo in
  ({| stdout := stdout w; stderr := stderr w ++ progress ps |},
   Promise_all order ps).

(** Line 234: [allPluginsInfo[idx].newestVersion = newestVersionsArr[idx]]. *)
Definition set_newest_at (newestVersionsArr : list string) (idx : nat)
  : SE (list PluginRecord) unit := fun allPluginsInfo =>
  match allPluginsInfo !! idx with
  | Some _ =>
      (alter (set_newestVersion (newestVersionsArr !! idx)) idx allPluginsInfo,
       inr tt)
  | None =>
      (allPluginsInfo,
       inl (TypeError "Cannot set property 'newestVersion' of undefined"))
  end.

(** Lines 231-236. *)
Definition augment (allPluginsInfo : list PluginRecord)
  (newestVersionsArr : list string) : result (list PluginRecord) :=
  let '(allPluginsInfo, r) :=
    forEach (fun '(idx, _) => set_newest_at newestVersionsArr idx)
            (imap pair newestVersionsArr) allPluginsInfo in
  _ ← r; mret allPluginsInfo.

(** Lines 239-243. *)
Definition print_table (t : Table) : SE world unit :=
  console_log (Log (Plain "")) ;; console_log (LogTable t).

(** Lines 243-247. *)
Definition print_error (err : error) : SE world unit :=
  console_log (Log (Plain "")) ;;
  console_log (Log (Styled RedBold (toString err))) ;;
  console_log (LogStack err).

(** The promise chain of lines 231-247, from the records read. *)
Definition chain (allPluginsInfo : list PluginRecord) (w : world)
  : world * settled unit :=
  catch_ print_error
    (then_ print_table
       (then_ (fun allPluginsInfo => on_stdout (postProcessPluginsInfo semver allPluginsInfo))
          (then_ (fun newestVersionsArr => lift (augment allPluginsInfo newestVersionsArr))
             (getNewestVersionsInfoFromNpm allPluginsInfo w)))).

(** Lines 228-248.  The reader runs outside the chain: its throw is not
    caught. *)
Definition main (cordovaPlugins : list declaration) (w : world)
  : world * run :=
  match readPluginInfoFromDisk disk ROOT cordovaPlugins with
  | inl e => (w, Uncaught e)
  | inr allPluginsInfo =>
      let '(w', p) := chain allPluginsInfo w in (w', Chain p)
  end.

End Main.

(** ** A reference model of the semver package

    For the closed examples below the package is modelled on a fragment of
    its input: versions of the form [MAJOR.MINOR.PATCH] (no prerelease, no
    build, no leading [v], no surrounding white space) and ranges made of
    such versions, each with [<], [<=], [>], [>=], [=] or nothing right
    before it, joined by spaces and [||].  On this fragment [compare],
    [satisfies] and [outside] follow the package's functions of these names
    ([gtr] and [ltr] are [outside] with [>] and [<]).  Any other string is
    reported as invalid, which for the strings the package accepts beyond the
    fragment is not what the package does: the examples stay inside the
    fragment, except for strings that the package rejects too. *)

Module SemverRef.

Record version := { major : N; minor : N; patch : N }.

Definition MAX_SAFE_INTEGER : N := 9007199254740991.
Definition MAX_LENGTH : nat := 256.

Definition digit (c : ascii) : option N :=
  let n := N_of_ascii c in
  if ((48 <=? n) && (n <=? 57))%N then Some (n - 48)%N else None.

Fixpoint digits (acc : N) (s : string) : option N :=
  match s with
  | EmptyString => Some acc
  | String c s' =>
      match digit c with
      | Some d => digits (acc * 10 + d)%N s'
      | None => None
      end
  end.

(** [0|[1-9]\d*] *)
Definition numeric_identifier (s : string) : option N :=
  match s with
  | EmptyString => None
  | String "0" EmptyString => Some 0%N
  | String "0" _ => None
  | _ => digits 0 s
  end.

Definition invalid_version (s : string) : error :=
  TypeError ("Invalid Version: " +:+ s).

(** [new SemVer(s)] *)
Definition parse (s : string) : result version :=
  if (MAX_LENGTH <? String.length s)%nat
  then throw (TypeError "version is longer than 256 characters")
  else
    match split "." s with
    | [a; b; c] =>
        match numeric_identifier a, numeric_identifier b, numeric_identifier c with
        | Some x, Some y, Some z =>
            if (MAX_SAFE_INTEGER <? x)%N then throw (TypeError "Invalid major version")
            else if (MAX_SAFE_INTEGER <? y)%N then throw (TypeError "Invalid minor version")
            else if (MAX_SAFE_INTEGER <? z)%N then throw (TypeError "Invalid patch version")
            else mret {| major := x; minor := y; patch := z |}
        | _, _, _ => throw (invalid_version s)
        end
    | _ => throw (invalid_version s)
    end.

(** [SemVer.prototype.compare]: major, then minor, then patch. *)
Definition compare_versions (a b : version) : comparison :=
  match (major a ?= major b)%N with
  | Eq => match (minor a ?= minor b)%N with
          | Eq => (patch a ?= patch b)%N
          | c => c
          end
  | c => c
  end.

Definition compare (a b : string) : result comparison :=
  va ← parse a; vb ← parse b; mret (compare_versions va vb).

Definition v_gt (a b : version) : bool :=
  match compare_versions a b with Gt => true | _ => false end.
Definition v_lt (a b : version) : bool :=
  match compare_versions a b with Lt => true | _ => false end.
Definition v_eq (a b : version) : bool :=
  match compare_versions a b with Eq => true | _ => false end.
Definition v_gte (a b : version) : bool := negb (v_lt a b).
Definition v_lte (a b : version) : bool := negb (v_gt a b).

Inductive operator := OpNone | OpLt | OpLe | OpGt | OpGe.

Record comparator := { op : operator; semver : version }.

(** [Comparator.prototype.test] *)
Definition test (c : comparator) (v : version) : bool :=
  match op c with
  | OpNone => v_eq v (semver c)
  | OpLt => v_lt v (semver c)
  | OpLe => v_lte v (semver c)
  | OpGt => v_gt v (semver c)
  | OpGe => v_gte v (semver c)
  end.

(** [new Comparator(s)]; the operator [=] is stored as none. *)
Definition parse_comparator (s : string) : result comparator :=
  match s with
  | String "<" (String "=" s') => v ← parse s'; mret {| op := OpLe; semver := v |}
  | String ">" (String "=" s') => v ← parse s'; mret {| op := OpGe; semver := v |}
  | String "<" s' => v ← parse s'; mret {| op := OpLt; semver := v |}
  | String ">" s' => v ← parse s'; mret {| op := OpGt; semver := v |}
  | String "=" s' => v ← parse s'; mret {| op := OpNone; semver := v |}
  | _ => v ← parse s; mret {| op := OpNone; semver := v |}
  end.

(** The pieces of [s] between the separators [||]. *)
Fixpoint split_bars (s : string) : list string :=
  match s with
  | EmptyString => [EmptyString]
  | String "|" (String "|" s') => EmptyString :: split_bars s'
  | String c s' =>
      match split_bars s' with
      | piece :: pieces => String c piece :: pieces
      | [] => [String c EmptyString]
      end
  end.

Fixpoint parse_all (tokens : list string) : result (list comparator) :=
  match tokens with
  | [] => mret []
  | t :: tokens' =>
      c ← parse_comparator t; cs ← parse_all tokens'; mret (c :: cs)
  end.

Definition invalid_range (s : string) : error :=
  TypeError ("Invalid SemVer Range: " +:+ s).

(** One alternative of a range: its comparators, separated by spaces. *)
Definition parse_set (range s : string) : result (list comparator) :=
  match filter (fun t => t <> "") (split " " s) with
  | [] => throw (invalid_range range)
  | tokens => parse_all tokens
  end.

Fixpoint parse_sets (range : string) (alts : list string)
  : result (list (list comparator)) :=
  match alts with
  | [] => mret []
  | a :: alts' =>
      cs ← parse_set range a; sets ← parse_sets range alts'; mret (cs :: sets)
  end.

(** [new Range(s)] *)
Definition parse_range (s : string) : result (list (list comparator)) :=
  parse_sets s (split_bars s).

(** [Range.prototype.test] *)
Definition test_range (r : list (list comparator)) (v : version) : bool :=
  existsb (fun set => forallb (fun c => test c v) set) r.

(** [semver.satisfies(version, range)]; an invalid range satisfies
    nothing. *)
Definition satisfies (version range : string) : result bool :=
  match parse_range range with
  | inr r => v ← parse version; mret (test_range r v)
  | inl _ => mret false
  end.

Inductive hilo := Hi | Lo.

(** The highest and the lowest comparator of a set (the [forEach] of
    [outside]). *)
Definition edges (gtfn ltfn : version -> version -> bool)
  (set : list comparator) : option (comparator * comparator) :=
  foldl (fun acc c =>
           let '(high, low) := default (c, c) acc in
           if gtfn (semver c) (semver high) then Some (c, low)
           else if ltfn (semver c) (semver low) then Some (high, c)
           else Some (high, low))
        None set.

Definition op_eqb (a b : operator) : bool :=
  match a, b with
  | OpNone, OpNone | OpLt, OpLt | OpLe, OpLe | OpGt, OpGt | OpGe, OpGe => true
  | _, _ => false
  end.

(** The body of the loop of [outside] for one set: [true] when the set
    shows that the version is not outside. *)
Definition not_outside_set (h : hilo) (v : version) (set : list comparator)
  : bool :=
  let '(gtfn, ltefn, ltfn, comp, ecomp) :=
    match h with
    | Hi => (v_gt, v_lte, v_lt, OpGt, OpGe)
    | Lo => (v_lt, v_gte, v_gt, OpLt, OpLe)
    end in
  match edges gtfn ltfn set with
  | None => false
  | Some (high, low) =>
      if op_eqb (op high) comp || op_eqb (op high) ecomp then true
      else if (op_eqb (op low) OpNone || op_eqb (op low) comp)
              && ltefn v (semver low) then true
      else if op_eqb (op low) ecomp && ltfn v (semver low) then true
      else false
  end.

(** [semver.outside(version, range, hilo)] *)
Definition outside (h : hilo) (version range : string) : result bool :=
  v ← parse version;
  r ← parse_range range;
  if test_range r v then mret false
  else mret (negb (existsb (not_outside_set h v) r)).

(** The package on the fragment. *)
Definition lib : Semver.lib :=
  {| Semver.compare := compare;
     Semver.gtr := outside Hi;
     Semver.ltr := outside Lo |}.

End SemverRef.

(** ** A sample project

    A disk, a registry and a declaration list for the closed examples. *)

Module Sample.

(** Consecutive slashes collapse, as [path.join] normalises them. *)
Fixpoint collapse (s : string) : string :=
  match s with
  | String "/" (String "/" _ as s') => collapse s'
  | String c s' => String c (collapse s')
  | EmptyString => EmptyString
  end.

Definition join (parts : list string) : string :=
  collapse (String.concat "/" parts).

Definition ROOT : string := "/app/".

(** [plugins/foo] holds both files; [plugins/bar-id] holds both files with
    different versions; [plugins/old] holds a descriptor whose version is
    no semver version; nothing else is installed. *)
Definition files : list (string * value) :=
  [ ("/app/plugins/foo/plugin.xml", Some "1.0.0");
    ("/app/plugins/foo/package.json", Some "1.0.0");
    ("/app/plugins/bar-id/plugin.xml", Some "2.0.0");
    ("/app/plugins/bar-id/package.json", Some "2.5.0");
    ("/app/plugins/old/plugin.xml", Some "1.0") ].

Fixpoint assoc (file : string) (l : list (string * value)) : option value :=
  match l with
  | [] => None
  | (f, v) :: l' => if String.eqb f file then Some v else assoc file l'
  end.

Definition lookup (file : string) : option value := assoc file files.

Definition read (file : string) : result value :=
  match lookup file with
  | Some v => inr v
  | None => inl (Error "Error" ("ENOENT: no such file or directory, open '" +:+ file +:+ "'"))
  end.

Definition disk : Disk :=
  {| path_join := join;
     existsSync := fun file => bool_decide (is_Some (lookup file));
     require_version := read;
     plugin_attr_version := read |}.

(** A disk where [plugins/gone] holds a manifest that does not parse and
    no descriptor. *)
Definition half_installed : Disk :=
  {| path_join := join;
     existsSync := fun file => String.eqb file "/app/plugins/gone/package.json";
     require_version := fun file => inl (Error "SyntaxError" "Unexpected end of JSON input");
     plugin_attr_version := read |}.

(** The registry knows [foo] and [bar]. *)
Definition npmViewPromise (name : string) : result string :=
  if decide (name = "foo") then inr "1.2.0"
  else if decide (name = "bar") then inr "2.5.0"
  else inl (Error "Error" ("Registry returned 404 for GET on " +:+ name)).

Definition w0 : world := {| stdout := []; stderr := [] |}.

End Sample.

(** ** What one record contributes to the report

    The conditions, the warnings and the cells of lines 143-191, written as
    functions of the record. *)

Section Contributions.

Variable semver : Semver.lib.

(** Line 148. *)
Definition versions_differ (r : PluginRecord) : bool :=
  truthy (installedVersionJson r) && truthy (installedVersionXml r)
  && bool_decide (installedVersionJson r <> installedVersionXml r).

(** Line 155. *)
Definition names_differ (r : PluginRecord) : bool :=
  bool_decide (pluginName r <> pluginFolder r).

Definition version_warning (r : PluginRecord) : string :=
  warning1 (pluginName r) (the (installedVersionJson r)) (the (installedVersionXml r)).

Definition name_warning (r : PluginRecord) : string :=
  warning2 (pluginName r) (pluginFolder r).

Definition recordWarnings (r : PluginRecord) : list string :=
  (if versions_differ r then [version_warning r] else [])
  ++ (if names_differ r then [name_warning r] else []).

Definition displayName (r : PluginRecord) : string :=
  if names_differ r
  then pluginName r +:+ " (" +:+ pluginFolder r +:+ ")"
  else pluginName r.

(** Line 165. *)
Definition installed (r : PluginRecord) : value :=
  JS.or (installedVersionJson r) (installedVersionXml r).

(** Lines 169-176, by the outcome of the comparison. *)
Definition newestCell (r : PluginRecord) : result (option text) :=
  if truthy (newestVersion r) && truthy (installed r) then
    match Semver.compare semver (the (newestVersion r)) (the (installed r)) with
    | inl e => inl e
    | inr Gt => inr (Some (Styled GreenBold (the (newestVersion r))))
    | inr Lt => inr (Some (Styled RedBold (the (newestVersion r))))
    | inr Eq => inr (plain (newestVersion r))
    end
  else inr (plain (newestVersion r)).

(** Lines 178-184, by the outcome of the two range tests: the installed
    cell and the expected cell. *)
Definition constraintCells (r : PluginRecord) : result (option text * option text) :=
  if truthy (expectedVersion r) && truthy (installed r) then
    match Semver.gtr semver (the (installed r)) (the (expectedVersion r)) with
    | inl e => inl e
    | inr true => inr (Some (Styled RedBold (the (installed r))), plain (expectedVersion r))
    | inr false =>
        match Semver.ltr semver (the (installed r)) (the (expectedVersion r)) with
        | inl e => inl e
        | inr true => inr (plain (installed r), Some (Styled RedBold (the (expectedVersion r))))
        | inr false => inr (plain (installed r), plain (expectedVersion r))
        end
    end
  else inr (plain (installed r), plain (expectedVersion r)).

(** The row of a record, or the error of the semver call that threw. *)
Definition cells (r : PluginRecord) : result (list text) :=
  n ← newestCell r;
  ie ← constraintCells r;
  mret [Plain (displayName r); or_dash (snd ie); or_dash (fst ie); or_dash n].

Definition warned (r : PluginRecord) (st : arrays) : arrays :=
  {| table := table st; warnings := warnings st ++ recordWarnings r |}.

(** The records the loop visits: up to the first whose row throws. *)
Fixpoint visited (rs : list PluginRecord) : list PluginRecord :=
  match rs with
  | [] => []
  | r :: rs' =>
      match cells r with
      | inl _ => [r]
      | inr _ => r :: visited rs'
      end
  end.

(** The rows the loop pushes. *)
Fixpoint rowsOf (rs : list PluginRecord) : list (list text) :=
  match rs with
  | [] => []
  | r :: rs' =>
      match cells r with
      | inl _ => []
      | inr row => row :: rowsOf rs'
      end
  end.

(** The error that ends the loop, if any. *)
Fixpoint thrown (rs : list PluginRecord) : option error :=
  match rs with
  | [] => None
  | r :: rs' =>
      match cells r with
      | inl e => Some e
      | inr _ => thrown rs'
      end
  end.

Definition warning_lines (rs : list PluginRecord) : list output :=
  map (fun msg => Log (Styled YellowBold msg)) (flat_map (recordWarnings) rs).

Definition table_head : list string :=
  ["Plugin name"; "Expected"; "Installed"; "Newest"].


End Contributions.

Definition set_expectedVersion (v : value) (p : PluginRecord) : PluginRecord :=
  {| pluginName := pluginName p;
     pluginFolder := pluginFolder p;
     expectedVersion := v;
     installedVersionJson := installedVersionJson p;
     installedVersionXml := installedVersionXml p;
     newestVersion := newestVersion p |}.

Definition no_arrays : arrays := {| table := []; warnings := [] |}.

(** The record with its newest version filled from the registry. *)
Definition filled (npmViewPromise : string -> result string) (r : PluginRecord)
  : PluginRecord :=
  match npmViewPromise (pluginName r) with
  | inr v => set_newestVersion (Some v) r
  | inl _ => r
  end.

(** The process after the lookups have written to the error stream. *)
Definition after_lookups (npmViewPromise : string -> result string) (order : list nat)
  (rs : list PluginRecord) (w : world) : world :=
  {| stdout := stdout w;
     stderr := stderr w ++ ["fetching info from npm"]
               ++ progress order (allPromisesToNpm npmViewPromise rs) |}.

(** ** Sample records and declarations *)

(** A record whose installed version is above the expected one. *)
Definition above_expected : PluginRecord :=
  {| pluginName := "foo"; pluginFolder := "foo";
     expectedVersion := Some "1.0.0";
     installedVersionJson := Some "2.0.0"; installedVersionXml := Some "2.0.0";
     newestVersion := Some "2.0.0" |}.

(** A record whose installed version is below the expected one. *)
Definition below_expected : PluginRecord :=
  {| pluginName := "foo"; pluginFolder := "foo";
     expectedVersion := Some "2.0.0";
     installedVersionJson := Some "1.0.0"; installedVersionXml := Some "1.0.0";
     newestVersion := Some "2.0.0" |}.

(** A record whose installed version lies between two allowed versions. *)
Definition between_expected : PluginRecord :=
  {| pluginName := "foo"; pluginFolder := "foo";
     expectedVersion := Some "1.0.0 || 3.0.0";
     installedVersionJson := Some "2.0.0"; installedVersionXml := Some "2.0.0";
     newestVersion := Some "3.0.0" |}.

(** A record whose newest version is 2.0.0 while 10.0.0 is installed. *)
Definition ahead_of_registry : PluginRecord :=
  {| pluginName := "foo"; pluginFolder := "foo";
     expectedVersion := None;
     installedVersionJson := Some "10.0.0"; installedVersionXml := Some "10.0.0";
     newestVersion := Some "2.0.0" |}.

(** The record of the plugin [bar], installed under [bar-id] with two
    different versions. *)
Definition bar_record : PluginRecord :=
  {| pluginName := "bar"; pluginFolder := "bar-id";
     expectedVersion := Some "2.5.0";
     installedVersionJson := Some "2.5.0"; installedVersionXml := Some "2.0.0";
     newestVersion := Some "2.5.0" |}.

(** The record of a declaration [foo@]: the expected version is the empty
    string. *)
Definition empty_expected : PluginRecord :=
  {| pluginName := "foo"; pluginFolder := "foo";
     expectedVersion := Some "";
     installedVersionJson := Some "1.0.0"; installedVersionXml := Some "1.0.0";
     newestVersion := Some "1.2.0" |}.


Definition foo_record : PluginRecord :=
  {| pluginName := "foo"; pluginFolder := "foo";
     expectedVersion := Some "1.0.0";
     installedVersionJson := Some "1.0.0"; installedVersionXml := Some "1.0.0";
     newestVersion := Some "1.2.0" |}.

(** The declaration of a scoped package. *)
Definition scoped_string : declaration := DeclString "@scope/pkg@1.0.0".

(** An object declaration of a scoped package, with an id. *)
Definition scoped_object : declaration :=
  DeclObject (Some "@scope/pkg@1.0.0") (Some "pkg-id") None.

(** A declaration of [bar] whose [id] is the empty string. *)
Definition empty_id_object : declaration :=
  DeclObject (Some "bar@2.0.0") (Some "") None.

(** The declaration of the plugin [bar], installed under [bar-id]. *)
Definition bar_object : declaration :=
  DeclObject (Some "bar@2.0.0") (Some "bar-id") (Some "9.9.9").

(** The declaration of a plugin that is not installed. *)
Definition gone_string : declaration := DeclString "gone@1.0.0".

(** The declarations of the sample project, and one more that the registry
    does not know. *)
Definition sample_plugins : list declaration :=
  [DeclString "foo@1.0.0"; DeclObject (Some "bar@2.0.0") (Some "bar-id") None].

Definition sample_records : list PluginRecord :=
  [ {| pluginName := "foo"; pluginFolder := "foo"; expectedVersion := Some "1.0.0";
       installedVersionJson := Some "1.0.0"; installedVersionXml := Some "1.0.0";
       newestVersion := None |};
    {| pluginName := "bar"; pluginFolder := "bar-id"; expectedVersion := Some "2.0.0";
       installedVersionJson := Some "2.5.0"; installedVersionXml := Some "2.0.0";
       newestVersion := None |} ].

Definition gone_record : PluginRecord :=
  {| pluginName := "gone"; pluginFolder := "gone"; expectedVersion := Some "1.0.0";
     installedVersionJson := None; installedVersionXml := None;
     newestVersion := None |}.

(** ** What a run prints, and further sample disks *)

(** The line of [console.log(table.toString())]. *)
Definition is_table (o : output) : bool :=
  match o with
  | LogTable _ => true
  | _ => false
  end.

(** The line of [console.log(err.stack)]. *)
Definition is_stack (o : output) : bool :=
  match o with
  | LogStack _ => true
  | _ => false
  end.

Definition printed_tables (l : list output) : nat := length (List.filter is_table l).

Definition printed_stacks (l : list output) : nat := length (List.filter is_stack l).

(** The row of a record when no cell carries an emphasis. *)
Definition plain_row (r : PluginRecord) : list text :=
  [ Plain (displayName r);
    Plain (or_lit (expectedVersion r) "-");
    Plain (or_lit (installed r) "-");
    Plain (or_lit (newestVersion r) "-") ].

(** A disk where [plugins/foo] holds a descriptor and a manifest that does
    not parse. *)
Definition broken_manifest : Disk :=
  {| path_join := Sample.join;
     existsSync := fun file =>
       String.eqb file "/app/plugins/foo/plugin.xml"
       || String.eqb file "/app/plugins/foo/package.json";
     require_version := fun file => inl (Error "SyntaxError" "Unexpected end of JSON input");
     plugin_attr_version := Sample.read |}.

(** A disk where [plugins/foo] holds a descriptor and no manifest. *)
Definition descriptor_only : Disk :=
  {| path_join := Sample.join;
     existsSync := fun file => String.eqb file "/app/plugins/foo/plugin.xml";
     require_version := fun file => inl (Error "Error" ("Cannot find module '" +:+ file +:+ "'"));
     plugin_attr_version := Sample.read |}.

(** An object declaration with a git locator, an id and a version. *)
Definition git_object : declaration :=
  DeclObject (Some "https://github.com/EddyVerbruggen/cordova-plugin-googleplus#ecdb527")
             (Some "cordova-plugin-googleplus") (Some "5.0.0").


(** * Properties *)

(** ** [split] and [indexOf] against the words of the specification *)

Section Strings.

Variable sep : ascii.

Lemma split_first (s : string) :
  split sep s !! 0%nat = Some (Spec.before_first sep s).
Proof.
  induction s as [|c s IH]; simpl; [reflexivity|].
  destruct (Ascii.eqb c sep); [reflexivity|].
  destruct (split sep s) as [|piece pieces]; simpl in *; [discriminate|].
  congruence.
Qed.

Lemma split_second (s : string) :
  split sep s !! 1%nat = Spec.before_first sep <$> Spec.after_first sep s.
Proof.
  induction s as [|c s IH]; simpl; [reflexivity|].
  destruct (Ascii.eqb c sep); simpl.
  - apply split_first.
  - destruct (split sep s) as [|piece pieces]; simpl in *; exact IH.
Qed.

Lemma before_first_none (s : string) :
  Spec.occurrences sep s = 0%nat -> Spec.before_first sep s = s.
Proof.
  induction s as [|c s IH]; simpl; [reflexivity|].
  destruct (Ascii.eqb c sep); simpl; [discriminate|].
  intros H. rewrite IH; auto.
Qed.

Lemma after_first_none (s : string) :
  Spec.occurrences sep s = 0%nat <-> Spec.after_first sep s = None.
Proof.
  induction s as [|c s IH]; simpl; [tauto|].
  destruct (Ascii.eqb c sep); simpl; [split; discriminate|exact IH].
Qed.

Lemma after_first_occurrences (s t : string) :
  Spec.after_first sep s = Some t ->
  Spec.occurrences sep s = S (Spec.occurrences sep t).
Proof.
  induction s as [|c s IH]; simpl; [discriminate|].
  destruct (Ascii.eqb c sep); simpl.
  - intros E. injection E as ->. reflexivity.
  - exact IH.
Qed.

(** With at most one separator the second piece is all that follows it. *)
Lemma split_second_once (s : string) :
  (Spec.occurrences sep s <= 1)%nat ->
  split sep s !! 1%nat = Spec.after_first sep s.
Proof.
  intros H. rewrite split_second.
  destruct (Spec.after_first sep s) as [t|] eqn:E; simpl; [|reflexivity].
  apply after_first_occurrences in E.
  rewrite before_first_none; [reflexivity|lia].
Qed.

Lemma indexOf_ge (s : string) : (-1 <= indexOf sep s)%Z.
Proof.
  induction s as [|c s IH]; simpl; [lia|].
  destruct (Ascii.eqb c sep); [lia|].
  destruct (indexOf sep s <? 0)%Z eqn:E; lia.
Qed.

Lemma indexOf_found (s : string) :
  (indexOf sep s >? -1)%Z = true <-> (0 < Spec.occurrences sep s)%nat.
Proof.
  induction s as [|c s IH]; simpl; [split; [discriminate|lia]|].
  destruct (Ascii.eqb c sep); simpl; [split; [lia|reflexivity]|].
  rewrite <- IH. pose proof (indexOf_ge s).
  destruct (indexOf sep s <? 0)%Z eqn:E.
  - apply Z.ltb_lt in E. split; intros H1; apply Z.gtb_lt in H1; lia.
  - apply Z.ltb_ge in E. split; intros H1; apply Z.gtb_lt in H1; apply Z.gtb_lt; lia.
Qed.

End Strings.

(** ** The body of the loop and the loop *)

Section ReporterFacts.

Variable semver : Semver.lib.

Lemma processPlugin_run (r : PluginRecord) (st : arrays) :
  processPlugin semver r st =
    match cells semver r with
    | inl e => (warned r st, inl e)
    | inr row =>
        ({| table := table st ++ [row]; warnings := warnings st ++ recordWarnings r |},
         inr tt)
    end.
Proof.
  unfold processPlugin, cells, newestCell, constraintCells, warned, recordWarnings,
    displayName, installed, versions_differ, names_differ, version_warning,
    name_warning, Semver.gt, Semver.lt.
  unfold mbind, SE_bind, mret, SE_ret, result_bind, result_ret, lift,
    push_warning, push_row.
  destruct st as [tbl ws]; simpl.
  destruct (truthy (installedVersionJson r) && truthy (installedVersionXml r)
            && bool_decide (installedVersionJson r <> installedVersionXml r));
    destruct (bool_decide (pluginName r <> pluginFolder r)); simpl;
    rewrite ?app_nil_r, <- ?app_assoc; simpl;
    (destruct (truthy (newestVersion r)
               && truthy (JS.or (installedVersionJson r) (installedVersionXml r)));
     [destruct (Semver.compare semver _ _) as [e|[]]; simpl; try reflexivity|];
     (destruct (truthy (expectedVersion r)
                && truthy (JS.or (installedVersionJson r) (installedVersionXml r)));
      [destruct (Semver.gtr semver _ _) as [e|[]]; simpl; try reflexivity;
       destruct (Semver.ltr semver _ _) as [e|[]]; simpl; reflexivity
      |reflexivity])).
Qed.

End ReporterFacts.

Section LoopFacts.

Variable semver : Semver.lib.

Lemma forEach_run (rs : list PluginRecord) (st : arrays) :
  forEach (processPlugin semver) rs st =
    ({| table := table st ++ rowsOf semver rs;
        warnings := warnings st ++ flat_map (recordWarnings) (visited semver rs) |},
     match thrown semver rs with
     | Some e => inl e
     | None => inr tt
     end).
Proof.
  revert st. induction rs as [|r rs IH]; intros [tbl ws]; simpl.
  - rewrite !app_nil_r. reflexivity.
  - unfold mbind, SE_bind. rewrite processPlugin_run.
    destruct (cells semver r) as [e|row]; simpl.
    + rewrite !app_nil_r. reflexivity.
    + rewrite IH. simpl. rewrite <- !app_assoc. reflexivity.
Qed.

Lemma thrown_none (rs : list PluginRecord) :
  thrown semver rs = None ->
  visited semver rs = rs /\ length (rowsOf semver rs) = length rs
  /\ Forall2 (fun r row => cells semver r = inr row) rs (rowsOf semver rs).
Proof.
  induction rs as [|r rs IH]; simpl; [auto|].
  destruct (cells semver r) as [e|row] eqn:E; [discriminate|].
  intros H. destruct (IH H) as (Hv & Hl & F).
  rewrite Hv. simpl. rewrite Hl. auto.
Qed.


Lemma postProcessPluginsInfo_run (rs : list PluginRecord) (console : list output) :
  postProcessPluginsInfo semver rs console =
    match thrown semver rs with
    | Some e => (console ++ [Log (Plain "")], inl e)
    | None =>
        (console ++ [Log (Plain "")] ++ warning_lines rs ++ notices,
         inr {| head := table_head; rows := rowsOf semver rs |})
    end.
Proof.
  unfold postProcessPluginsInfo. rewrite forEach_run. simpl.
  destruct (thrown semver rs) eqn:E; [reflexivity|].
  destruct (thrown_none rs E) as (-> & _).
  unfold warning_lines, table_head. rewrite <- !app_assoc. reflexivity.
Qed.



End LoopFacts.

(** ** The reconciler, claim by claim *)

Lemma processPlugin_outcome (semver : Semver.lib) (r : PluginRecord) (st : arrays) :
  match processPlugin semver r st with
  | (st', inr _) =>
      exists row, cells semver r = inr row /\ table st' = table st ++ [row]
                  /\ warnings st' = warnings st ++ recordWarnings r
  | (st', inl e) =>
      cells semver r = inl e /\ table st' = table st
      /\ warnings st' = warnings st ++ recordWarnings r
  end.
Proof.
  rewrite processPlugin_run.
  destruct (cells semver r) as [e|row]; simpl; eauto.
Qed.

Lemma after_first_append_sep (sep : ascii) (s : string) :
  Spec.occurrences sep s = 0%nat -> Spec.after_first sep (s +:+ String sep "") = Some "".
Proof.
  induction s as [|c s IH]; simpl.
  - rewrite Ascii.eqb_refl. reflexivity.
  - destruct (Ascii.eqb c sep); simpl; [discriminate|exact IH].
Qed.

Lemma or_dash_plain (v : value) :
  truthy v = true -> or_dash (plain v) = Plain (the v).
Proof.
  destruct v as [s|]; simpl; [|discriminate]. intros ->. reflexivity.
Qed.

Lemma or_dash_plain_falsy (v : value) :
  truthy v = false -> or_dash (plain v) = Plain "-".
Proof.
  destruct v as [s|]; simpl; [|reflexivity]. intros ->. reflexivity.
Qed.

Lemma append_inj_l (s a b : string) : s +:+ a = s +:+ b -> a = b.
Proof.
  induction s as [|c s IH]; simpl; [auto|].
  intros H. injection H as H. auto.
Qed.

Lemma warnings_distinct (r : PluginRecord) : version_warning r <> name_warning r.
Proof.
  unfold version_warning, name_warning, warning1, warning2.
  intros H. apply append_inj_l in H. discriminate H.
Qed.

(** C1, as the claim states it, fails: the installed version 2.0.0 is
    outside the expected range 1.0.0, the installed cell is marked and the
    expected cell is not. *)
Lemma C1_counterexample_expected_cell_unmarked :
  truthy (expectedVersion above_expected) = true
  /\ truthy (installed above_expected) = true
  /\ SemverRef.satisfies "2.0.0" "1.0.0" = inr false
  /\ processPlugin SemverRef.lib above_expected no_arrays =
       ({| table := [[Plain "foo"; Plain "1.0.0"; Styled RedBold "2.0.0"; Plain "2.0.0"]];
           warnings := [] |}, inr tt)
  /\ text_style (Plain "1.0.0") <> Some RedBold.
Proof.
  repeat split; try reflexivity. discriminate.
Qed.

(** C1, amended: when the expected and the installed version are both
    present, the installed cell carries the constraint-violation emphasis
    exactly when the installed version is above the expected range
    ([semver.gtr]), the expected cell carries it exactly when the installed
    version is not above and is below the range ([semver.ltr]), and the two
    cells are never both marked; when a semver call throws no row is
    pushed. *)
Theorem C1_constraint_violation_marks_one_cell
  (semver : Semver.lib) (r : PluginRecord) (st : arrays) :
  truthy (expectedVersion r) = true ->
  truthy (installed r) = true ->
  match processPlugin semver r st with
  | (st', inr _) =>
      exists name e i n,
        table st' = table st ++ [[name; e; i; n]]
        /\ text_string e = the (expectedVersion r)
        /\ text_string i = the (installed r)
        /\ (text_style i = Some RedBold <->
            Semver.gtr semver (the (installed r)) (the (expectedVersion r)) = inr true)
        /\ (text_style e = Some RedBold <->
            Semver.gtr semver (the (installed r)) (the (expectedVersion r)) = inr false
            /\ Semver.ltr semver (the (installed r)) (the (expectedVersion r)) = inr true)
        /\ ~ (text_style i = Some RedBold /\ text_style e = Some RedBold)
  | (st', inl _) => table st' = table st
  end.
Proof.
  intros He Hi.
  pose proof (processPlugin_outcome semver r st) as H.
  destruct (processPlugin semver r st) as [st' [err|[]]]; [tauto|].
  destruct H as (row & Hrow & Ht & _).
  unfold cells, constraintCells in Hrow. rewrite He, Hi in Hrow. simpl in Hrow.
  unfold mbind, result_bind, mret, result_ret in Hrow.
  destruct (newestCell semver r) as [?|n]; [discriminate|].
  destruct (Semver.gtr semver _ _) as [?|[]]; [discriminate| |];
    [|destruct (Semver.ltr semver _ _) as [?|[]]; [discriminate| |]];
    simpl in Hrow; injection Hrow as <-;
    rewrite ?(or_dash_plain _ He), ?(or_dash_plain _ Hi) in Ht;
    do 4 eexists; (split; [exact Ht|]); simpl;
    repeat split; try reflexivity; try discriminate; try tauto;
    intros; try discriminate; intuition discriminate.
Qed.

(** The amended C1 at a record below its expected version: the expected
    cell is marked, the installed cell is not. *)
Lemma C1_witness_below_expected :
  truthy (expectedVersion below_expected) = true
  /\ truthy (installed below_expected) = true
  /\ match processPlugin SemverRef.lib below_expected no_arrays with
     | (st', inr _) =>
         exists name e i n,
           table st' = table no_arrays ++ [[name; e; i; n]]
           /\ text_string e = the (expectedVersion below_expected)
           /\ text_string i = the (installed below_expected)
           /\ (text_style i = Some RedBold <->
               Semver.gtr SemverRef.lib (the (installed below_expected))
                 (the (expectedVersion below_expected)) = inr true)
           /\ (text_style e = Some RedBold <->
               Semver.gtr SemverRef.lib (the (installed below_expected))
                 (the (expectedVersion below_expected)) = inr false
               /\ Semver.ltr SemverRef.lib (the (installed below_expected))
                    (the (expectedVersion below_expected)) = inr true)
           /\ ~ (text_style i = Some RedBold /\ text_style e = Some RedBold)
     | (st', inl _) => table st' = table no_arrays
     end.
Proof.
  split; [reflexivity|]. split; [reflexivity|].
  apply (C1_constraint_violation_marks_one_cell SemverRef.lib below_expected no_arrays);
    reflexivity.
Defined.

(** Outside the range is not the same as above or below it: 2.0.0 does not
    satisfy [1.0.0 || 3.0.0], and neither cell is marked. *)
Example between_expected_unmarked :
  SemverRef.satisfies "2.0.0" "1.0.0 || 3.0.0" = inr false
  /\ processPlugin SemverRef.lib between_expected no_arrays =
       ({| table := [[Plain "foo"; Plain "1.0.0 || 3.0.0"; Plain "2.0.0";
                      Styled GreenBold "3.0.0"]];
           warnings := [] |}, inr tt).
Proof. split; reflexivity. Qed.

(** C9: when the newest and the installed version are both present, the
    newest cell carries the newer-available emphasis exactly when
    [semver.compare] puts the newest version above the installed one, and the
    unexpected-downgrade emphasis exactly when it puts it below; when a
    semver call throws no row is pushed.  The order is the precedence of
    semver, not the order of strings: 2.0.0 is below 10.0.0 although the
    string 2.0.0 is above the string 10.0.0. *)
Theorem C9_newest_emphasis_follows_precedence
  (semver : Semver.lib) (r : PluginRecord) (st : arrays) :
  truthy (newestVersion r) = true ->
  truthy (installed r) = true ->
  match processPlugin semver r st with
  | (st', inr _) =>
      exists name e i n,
        table st' = table st ++ [[name; e; i; n]]
        /\ text_string n = the (newestVersion r)
        /\ (text_style n = Some GreenBold <->
            Semver.compare semver (the (newestVersion r)) (the (installed r)) = inr Gt)
        /\ (text_style n = Some RedBold <->
            Semver.compare semver (the (newestVersion r)) (the (installed r)) = inr Lt)
  | (st', inl _) => table st' = table st
  end
  /\ Semver.gt SemverRef.lib "2.0.0" "10.0.0" = inr false
  /\ Semver.lt SemverRef.lib "2.0.0" "10.0.0" = inr true
  /\ String.compare "2.0.0" "10.0.0" = Gt.
Proof.
  intros Hn Hi. split; [|repeat split; reflexivity].
  pose proof (processPlugin_outcome semver r st) as H.
  destruct (processPlugin semver r st) as [st' [err|[]]]; [tauto|].
  destruct H as (row & Hrow & Ht & _).
  unfold cells, newestCell in Hrow. rewrite Hn, Hi in Hrow. simpl in Hrow.
  unfold mbind, result_bind, mret, result_ret in Hrow.
  destruct (Semver.compare semver _ _) as [?|c]; [discriminate|].
  destruct (constraintCells semver r) as [?|[i e]]; [destruct c; discriminate|].
  destruct c; simpl in Hrow; injection Hrow as <-;
    rewrite ?(or_dash_plain _ Hn) in Ht;
    do 4 eexists; (split; [exact Ht|]); simpl;
    repeat split; try reflexivity; intros; discriminate.
Qed.

(** C9 at the record with newest 2.0.0 and installed 10.0.0. *)
Lemma C9_witness_downgrade :
  truthy (newestVersion ahead_of_registry) = true
  /\ truthy (installed ahead_of_registry) = true
  /\ processPlugin SemverRef.lib ahead_of_registry no_arrays =
       ({| table := [[Plain "foo"; Plain "-"; Plain "10.0.0"; Styled RedBold "2.0.0"]];
           warnings := [] |}, inr tt)
  /\ (match processPlugin SemverRef.lib ahead_of_registry no_arrays with
      | (st', inr _) =>
          exists name e i n,
            table st' = table no_arrays ++ [[name; e; i; n]]
            /\ text_string n = the (newestVersion ahead_of_registry)
            /\ (text_style n = Some GreenBold <->
                Semver.compare SemverRef.lib (the (newestVersion ahead_of_registry))
                  (the (installed ahead_of_registry)) = inr Gt)
            /\ (text_style n = Some RedBold <->
                Semver.compare SemverRef.lib (the (newestVersion ahead_of_registry))
                  (the (installed ahead_of_registry)) = inr Lt)
      | (st', inl _) => table st' = table no_arrays
      end
      /\ Semver.gt SemverRef.lib "2.0.0" "10.0.0" = inr false
      /\ Semver.lt SemverRef.lib "2.0.0" "10.0.0" = inr true
      /\ String.compare "2.0.0" "10.0.0" = Gt).
Proof.
  split; [reflexivity|]. split; [reflexivity|]. split; [reflexivity|].
  apply (C9_newest_emphasis_follows_precedence SemverRef.lib ahead_of_registry no_arrays);
    reflexivity.
Defined.

(** C7: the text of the Installed cell of the row pushed for a record is the
    manifest version when it is present, otherwise the descriptor version
    when it is present, otherwise a dash; a present manifest version wins
    over a descriptor version that differs.  Present means truthy: an empty
    string counts as absent.  When a semver call throws no row is pushed. *)
Theorem C7_installed_prefers_manifest
  (semver : Semver.lib) (r : PluginRecord) (st : arrays) :
  match processPlugin semver r st with
  | (st', inr _) =>
      exists name e i n,
        table st' = table st ++ [[name; e; i; n]]
        /\ text_string i =
             if truthy (installedVersionJson r) then the (installedVersionJson r)
             else if truthy (installedVersionXml r) then the (installedVersionXml r)
             else "-"
  | (st', inl _) => table st' = table st
  end.
Proof.
  pose proof (processPlugin_outcome semver r st) as H.
  destruct (processPlugin semver r st) as [st' [err|[]]]; [tauto|].
  destruct H as (row & Hrow & Ht & _).
  unfold cells in Hrow. unfold mbind, result_bind, mret, result_ret in Hrow.
  destruct (newestCell semver r) as [?|n]; [discriminate|].
  destruct (constraintCells semver r) as [?|[i e]] eqn:Hc; [discriminate|].
  injection Hrow as <-. do 4 eexists. split; [exact Ht|]. simpl.
  assert (Hinst : text_string (or_dash (plain (installed r))) =
                  if truthy (installedVersionJson r) then the (installedVersionJson r)
                  else if truthy (installedVersionXml r) then the (installedVersionXml r)
                  else "-").
  { unfold installed, JS.or.
    destruct (truthy (installedVersionJson r)) eqn:Hj.
    - rewrite (or_dash_plain _ Hj). reflexivity.
    - destruct (truthy (installedVersionXml r)) eqn:Hx.
      + rewrite (or_dash_plain _ Hx). reflexivity.
      + rewrite (or_dash_plain_falsy _ Hx). reflexivity. }
  unfold constraintCells in Hc.
  destruct (truthy (expectedVersion r) && truthy (installed r)) eqn:Hb.
  - apply andb_prop in Hb as [_ Hi].
    assert (Hthe : the (installed r) =
                   if truthy (installedVersionJson r) then the (installedVersionJson r)
                   else if truthy (installedVersionXml r) then the (installedVersionXml r)
                   else "-").
    { rewrite <- Hinst, (or_dash_plain _ Hi). reflexivity. }
    destruct (Semver.gtr semver _ _) as [?|[]]; [discriminate| |].
    + injection Hc as <- <-. exact Hthe.
    + destruct (Semver.ltr semver _ _) as [?|[]]; [discriminate| |];
        injection Hc as <- <-; exact Hinst.
  - injection Hc as <- <-. exact Hinst.
Qed.

Lemma pushed_warnings (semver : Semver.lib) (rs : list PluginRecord) :
  flat_map (fun r => warnings (fst (processPlugin semver r no_arrays))) rs =
  flat_map recordWarnings rs.
Proof.
  induction rs as [|r rs IH]; simpl; [reflexivity|].
  rewrite IH, processPlugin_run.
  destruct (cells semver r); reflexivity.
Qed.

(** C8: processing a record appends to [warnings], in this order, the
    version-mismatch warning exactly when the manifest and the descriptor
    version are both present and differ, and the name-mismatch warning
    exactly when the folder name differs from the plugin name; the name in
    the row pushed is then followed by the folder name in parentheses.  A run
    that completes prints the warnings of all the records in the order of the
    records, each as often as it was pushed; a run that a semver call ends
    prints none. *)
Theorem C8_warnings_in_encounter_order (semver : Semver.lib) :
  (forall (r : PluginRecord) (st : arrays),
      exists ws,
        warnings (fst (processPlugin semver r st)) = warnings st ++ ws
        /\ ws = (if truthy (installedVersionJson r) && truthy (installedVersionXml r)
                    && bool_decide (installedVersionJson r <> installedVersionXml r)
                 then [warning1 (pluginName r) (the (installedVersionJson r))
                         (the (installedVersionXml r))]
                 else [])
                ++ (if bool_decide (pluginName r <> pluginFolder r)
                    then [warning2 (pluginName r) (pluginFolder r)]
                    else [])
        /\ (warning1 (pluginName r) (the (installedVersionJson r))
              (the (installedVersionXml r)) ∈ ws <->
            truthy (installedVersionJson r) = true
            /\ truthy (installedVersionXml r) = true
            /\ installedVersionJson r <> installedVersionXml r)
        /\ (warning2 (pluginName r) (pluginFolder r) ∈ ws <->
            pluginFolder r <> pluginName r)
        /\ match processPlugin semver r st with
           | (st', inr _) =>
               exists e i n,
                 table st' = table st ++
                   [[Plain (if bool_decide (pluginName r <> pluginFolder r)
                            then pluginName r +:+ " (" +:+ pluginFolder r +:+ ")"
                            else pluginName r); e; i; n]]
           | (st', inl _) => table st' = table st
           end)
  /\ (forall (rs : list PluginRecord) (console : list output),
         match postProcessPluginsInfo semver rs console with
         | (console', inr _) =>
             console' =
               console ++ [Log (Plain "")]
               ++ map (fun msg => Log (Styled YellowBold msg))
                    (flat_map (fun r => warnings (fst (processPlugin semver r no_arrays))) rs)
               ++ notices
         | (console', inl _) => console' = console ++ [Log (Plain "")]
         end).
Proof.
  split.
  - intros r st. exists (recordWarnings r).
    pose proof (processPlugin_outcome semver r st) as H.
    assert (Hw : warnings (fst (processPlugin semver r st)) = warnings st ++ recordWarnings r).
    { destruct (processPlugin semver r st) as [st' [err|[]]]; simpl.
      - tauto.
      - destruct H as (row & _ & _ & Hw). exact Hw. }
    split; [exact Hw|]. split; [reflexivity|].
    assert (Hrow : match processPlugin semver r st with
                   | (st', inr _) =>
                       exists e i n,
                         table st' = table st ++
                           [[Plain (if bool_decide (pluginName r <> pluginFolder r)
                                    then pluginName r +:+ " (" +:+ pluginFolder r +:+ ")"
                                    else pluginName r); e; i; n]]
                   | (st', inl _) => table st' = table st
                   end).
    { destruct (processPlugin semver r st) as [st' [err|[]]]; [tauto|].
      destruct H as (row & Hrow & Ht & _).
      unfold cells, displayName, names_differ in Hrow.
      unfold mbind, result_bind, mret, result_ret in Hrow.
      destruct (newestCell semver r) as [?|n]; [discriminate|].
      destruct (constraintCells semver r) as [?|[i e]]; [discriminate|].
      injection Hrow as <-. do 3 eexists. exact Ht. }
    clear H Hw.
    pose proof (warnings_distinct r) as Hd.
    unfold recordWarnings, versions_differ, names_differ, version_warning, name_warning in *.
    assert (Hb1 : truthy (installedVersionJson r) && truthy (installedVersionXml r)
                  && bool_decide (installedVersionJson r <> installedVersionXml r) = true
                  <-> truthy (installedVersionJson r) = true
                      /\ truthy (installedVersionXml r) = true
                      /\ installedVersionJson r <> installedVersionXml r).
    { rewrite !andb_true_iff, bool_decide_eq_true. tauto. }
    assert (Hb2 : bool_decide (pluginName r <> pluginFolder r) = true
                  <-> pluginFolder r <> pluginName r).
    { rewrite bool_decide_eq_true. split; intros Hne Heq; apply Hne; symmetry; exact Heq. }
    rewrite <- Hb1, <- Hb2. clear Hb1 Hb2.
    split; [|split; [|exact Hrow]]; clear Hrow;
      destruct (truthy (installedVersionJson r) && truthy (installedVersionXml r)
                && bool_decide (installedVersionJson r <> installedVersionXml r));
      destruct (bool_decide (pluginName r <> pluginFolder r));
      rewrite ?elem_of_app, ?elem_of_cons, ?elem_of_nil;
      intuition (congruence || discriminate).
  - intros rs console. rewrite postProcessPluginsInfo_run.
    destruct (thrown semver rs); [reflexivity|].
    unfold warning_lines. rewrite (pushed_warnings semver rs). reflexivity.
Qed.

(** C8 on the record [bar], twice in the list: both warnings are printed for
    each occurrence, the version warning first. *)
Lemma C8_witness_bar_twice :
  fst (postProcessPluginsInfo SemverRef.lib [bar_record; bar_record] []) =
    [] ++ [Log (Plain "")]
    ++ map (fun msg => Log (Styled YellowBold msg))
         (flat_map (fun r => warnings (fst (processPlugin SemverRef.lib r no_arrays)))
            [bar_record; bar_record])
    ++ notices
  /\ flat_map (fun r => warnings (fst (processPlugin SemverRef.lib r no_arrays)))
       [bar_record; bar_record] =
     [ "bar: version in package.json(2.5.0) does not match plugin.xml(2.0.0), assuming version in package.json.";
       "bar: plugin npm name does not match its id from plugin.xml (bar-id)!";
       "bar: version in package.json(2.5.0) does not match plugin.xml(2.0.0), assuming version in package.json.";
       "bar: plugin npm name does not match its id from plugin.xml (bar-id)!" ].
Proof.
  split; [|reflexivity].
  generalize (proj2 (C8_warnings_in_encounter_order SemverRef.lib)
                [bar_record; bar_record] []).
  destruct (postProcessPluginsInfo SemverRef.lib [bar_record; bar_record] [])
    as [console' [err|t]] eqn:E.
  - vm_compute in E. discriminate E.
  - simpl. intros ->. reflexivity.
Defined.

Lemma cells_empty_expected (semver : Semver.lib) (r : PluginRecord) :
  truthy (expectedVersion r) = false ->
  cells semver r =
    (n ← newestCell semver r;
     mret [Plain (displayName r); Plain "-"; or_dash (plain (installed r)); or_dash n]).
Proof.
  intros He. unfold cells, constraintCells. rewrite He. simpl.
  unfold mbind, result_bind, mret, result_ret.
  destruct (newestCell semver r); [reflexivity|]. simpl.
  rewrite (or_dash_plain_falsy _ He). reflexivity.
Qed.

(** C10: a record whose expected version is the empty string is processed
    as the same record without an expected version: the Expected cell of its
    row is the dash, and the outcome does not depend on [semver.gtr] and
    [semver.ltr] (two packages with the same [compare] give the same
    outcome), so no range test takes part.  The empty version comes from a
    string declaration [name@] and from an object declaration without an
    [@] in its locator and without a version, read as [id@]. *)
Theorem C10_empty_expected_version_is_absent
  (semver : Semver.lib) (r : PluginRecord) (st : arrays) :
  expectedVersion r = Some "" ->
  processPlugin semver r st = processPlugin semver (set_expectedVersion None r) st
  /\ (forall semver' : Semver.lib,
         (forall a b, Semver.compare semver' a b = Semver.compare semver a b) ->
         processPlugin semver' r st = processPlugin semver r st)
  /\ match processPlugin semver r st with
     | (st', inr _) =>
         exists name i n, table st' = table st ++ [[name; Plain "-"; i; n]]
     | (st', inl e) =>
         table st' = table st
         /\ Semver.compare semver (the (newestVersion r)) (the (installed r)) = inl e
     end
  /\ (forall name : string,
         Spec.occurrences "@" name = 0%nat ->
         pluginExpectedVersion (DeclString (name +:+ "@")) = Some "")
  /\ (forall (locator version : value) (id : string),
         Spec.occurrences "@" (the locator) = 0%nat ->
         truthy version = false ->
         Spec.occurrences "@" id = 0%nat ->
         pluginNameAndVersion (DeclObject locator (Some id) version) = id +:+ "@"
         /\ pluginExpectedVersion (DeclObject locator (Some id) version) = Some "").
Proof.
  intros He.
  assert (Hf : truthy (expectedVersion r) = false) by (rewrite He; reflexivity).
  split; [|split; [|split; [|split]]].
  - rewrite !processPlugin_run, (cells_empty_expected semver r Hf).
    rewrite (cells_empty_expected semver (set_expectedVersion None r) eq_refl).
    reflexivity.
  - intros semver' Hcmp.
    rewrite !processPlugin_run, !(cells_empty_expected _ r Hf).
    unfold newestCell. rewrite Hcmp. reflexivity.
  - pose proof (processPlugin_outcome semver r st) as H.
    rewrite (cells_empty_expected semver r Hf) in H.
    unfold newestCell, mbind, result_bind, mret, result_ret in H.
    destruct (processPlugin semver r st) as [st' [err|[]]].
    + destruct H as (Hc & Ht & _). split; [exact Ht|].
      destruct (truthy (newestVersion r) && truthy (installed r)); [|discriminate].
      destruct (Semver.compare semver _ _) as [e|[]]; try discriminate.
      congruence.
    + destruct H as (row & Hc & Ht & _).
      destruct (truthy (newestVersion r) && truthy (installed r));
        [destruct (Semver.compare semver _ _) as [e|[]]; try discriminate|];
        injection Hc as <-; do 3 eexists; exact Ht.
  - intros name Hname. unfold pluginExpectedVersion, pluginNameAndVersion.
    rewrite split_second, (after_first_append_sep _ _ Hname). reflexivity.
  - intros locator version id Hl Hv Hid.
    assert (Hnv : pluginNameAndVersion (DeclObject locator (Some id) version) = id +:+ "@").
    { unfold pluginNameAndVersion. destruct locator as [l|]; simpl in *.
      - assert (Hi : (indexOf "@" l >? -1)%Z = false).
        { destruct (indexOf "@" l >? -1)%Z eqn:E; [|reflexivity].
          apply indexOf_found in E. lia. }
        rewrite Hi, andb_false_r.
        destruct version as [v|]; simpl in *; [rewrite Hv|]; reflexivity.
      - destruct version as [v|]; simpl in *; [rewrite Hv|]; reflexivity. }
    split; [exact Hnv|].
    unfold pluginExpectedVersion. rewrite Hnv.
    rewrite split_second, (after_first_append_sep _ _ Hid). reflexivity.
Qed.

(** C10 at the record of the declaration [foo@]. *)
Lemma C10_witness_foo_at :
  expectedVersion empty_expected = Some ""
  /\ processPlugin SemverRef.lib empty_expected no_arrays =
       ({| table := [[Plain "foo"; Plain "-"; Plain "1.0.0"; Styled GreenBold "1.2.0"]];
           warnings := [] |}, inr tt)
  /\ processPlugin SemverRef.lib empty_expected no_arrays =
       processPlugin SemverRef.lib (set_expectedVersion None empty_expected) no_arrays.
Proof.
  split; [reflexivity|]. split; [reflexivity|].
  exact (proj1 (C10_empty_expected_version_is_absent SemverRef.lib empty_expected
                  no_arrays eq_refl)).
Defined.




(** ** The reader, claim by claim *)

Lemma readPlugin_outcome (disk : Disk) (ROOT : string) (d : declaration) :
  match readPlugin disk ROOT d with
  | inr r =>
      pluginName r = parsedName d /\ pluginFolder r = folderOf d
      /\ expectedVersion r = pluginExpectedVersion d /\ newestVersion r = None
  | inl e =>
      existsSync disk (pluginXmlFile disk ROOT d) = true
      /\ (getVersionFromJSON disk (pluginJSONFile disk ROOT d) = inl e
          \/ getVersionFromXML disk (pluginXmlFile disk ROOT d) = inl e)
  end.
Proof.
  unfold readPlugin.
  destruct (existsSync disk (pluginXmlFile disk ROOT d)) eqn:Ex; simpl; [|auto].
  unfold mbind, result_bind.
  destruct (getVersionFromJSON disk _) as [e|json]; [auto|].
  destruct (getVersionFromXML disk _) as [e|xml]; simpl; auto.
Qed.

Lemma parsedName_before_first (d : declaration) :
  parsedName d = Spec.before_first "@" (pluginNameAndVersion d).
Proof. unfold parsedName. rewrite split_first. reflexivity. Qed.

Lemma indexOf_nonempty (c : ascii) (s : string) :
  (indexOf c s >? -1)%Z = true -> truthy (Some s) = true.
Proof. destruct s; [discriminate|reflexivity]. Qed.

(** C4, as the claim states it, fails on a string with a second [@]: the
    expected version read from [@scope/pkg@1.0.0] is [scope/pkg], the text
    after the first [@] is [scope/pkg@1.0.0]. *)
Lemma C4_counterexample_second_at :
  readPlugin Sample.disk Sample.ROOT scoped_string =
    inr {| pluginName := ""; pluginFolder := "";
           expectedVersion := Some "scope/pkg";
           installedVersionJson := None; installedVersionXml := None;
           newestVersion := None |}
  /\ Spec.after_first "@" "@scope/pkg@1.0.0" = Some "scope/pkg@1.0.0"
  /\ pluginExpectedVersion scoped_string <> Spec.after_first "@" "@scope/pkg@1.0.0".
Proof.
  split; [reflexivity|]. split; [reflexivity|]. discriminate.
Qed.

(** C4, amended: for a string declaration the name of the record is the
    text before the first [@], and the expected version is the text between
    the first [@] and the next [@] or the end, absent without an [@]; with
    at most one [@] it is all the text after it.  The reader throws only
    when a probed file does not parse. *)
Theorem C4_string_declaration_pieces (disk : Disk) (ROOT s : string) :
  match readPlugin disk ROOT (DeclString s) with
  | inr r =>
      pluginName r = Spec.before_first "@" s
      /\ expectedVersion r = Spec.before_first "@" <$> Spec.after_first "@" s
      /\ (Spec.occurrences "@" s = 0%nat -> expectedVersion r = None)
      /\ ((Spec.occurrences "@" s <= 1)%nat ->
          expectedVersion r = Spec.after_first "@" s)
  | inl e =>
      getVersionFromJSON disk (pluginJSONFile disk ROOT (DeclString s)) = inl e
      \/ getVersionFromXML disk (pluginXmlFile disk ROOT (DeclString s)) = inl e
  end.
Proof.
  pose proof (readPlugin_outcome disk ROOT (DeclString s)) as H.
  destruct (readPlugin disk ROOT (DeclString s)) as [e|r]; [tauto|].
  destruct H as (Hn & _ & He & _).
  rewrite Hn, He, parsedName_before_first. unfold pluginExpectedVersion. simpl.
  split; [reflexivity|]. split; [apply split_second|].
  split; [|apply split_second_once].
  intros H0. rewrite split_second_once by lia. apply after_first_none. exact H0.
Qed.

(** The amended C4 at the declaration [cordova-plugin-calendar@4.5.1]. *)
Lemma C4_witness_calendar :
  (Spec.occurrences "@" "cordova-plugin-calendar@4.5.1" <= 1)%nat
  /\ readPlugin Sample.disk Sample.ROOT (DeclString "cordova-plugin-calendar@4.5.1") =
       inr {| pluginName := "cordova-plugin-calendar";
              pluginFolder := "cordova-plugin-calendar";
              expectedVersion := Some "4.5.1";
              installedVersionJson := None; installedVersionXml := None;
              newestVersion := None |}
  /\ Some "4.5.1" = Spec.after_first "@" "cordova-plugin-calendar@4.5.1".
Proof.
  assert (Hle : (Spec.occurrences "@" "cordova-plugin-calendar@4.5.1" <= 1)%nat)
    by (vm_compute; lia).
  split; [exact Hle|]. split; [reflexivity|].
  generalize (C4_string_declaration_pieces Sample.disk Sample.ROOT
                "cordova-plugin-calendar@4.5.1").
  destruct (readPlugin Sample.disk Sample.ROOT (DeclString "cordova-plugin-calendar@4.5.1"))
    as [e|r] eqn:E.
  - vm_compute in E. discriminate E.
  - intros (_ & _ & _ & H). rewrite <- (H Hle).
    vm_compute in E. injection E as <-. reflexivity.
Defined.

(** C5, as the claim states it, fails twice.  On a locator with a second
    [@]: the version read from the locator [@scope/pkg@1.0.0] is
    [scope/pkg], the text after its first [@] is [scope/pkg@1.0.0].  On an
    [id] that is the empty string: the folder is the parsed name [bar], not
    the id. *)
Lemma C5_counterexample_second_at :
  (0 < Spec.occurrences "@" "@scope/pkg@1.0.0")%nat
  /\ readPlugin Sample.disk Sample.ROOT scoped_object =
       inr {| pluginName := ""; pluginFolder := "pkg-id";
              expectedVersion := Some "scope/pkg";
              installedVersionJson := None; installedVersionXml := None;
              newestVersion := None |}
  /\ (Spec.before_first "@" "@scope/pkg@1.0.0", Spec.after_first "@" "@scope/pkg@1.0.0")
     = ("", Some "scope/pkg@1.0.0")
  /\ (parsedName scoped_object, pluginExpectedVersion scoped_object)
     <> (Spec.before_first "@" "@scope/pkg@1.0.0", Spec.after_first "@" "@scope/pkg@1.0.0")
  /\ decl_id empty_id_object = Some ""
  /\ parsedName empty_id_object = "bar"
  /\ folderOf empty_id_object = "bar"
  /\ folderOf empty_id_object <> "".
Proof.
  split; [vm_compute; lia|]. split; [reflexivity|]. split; [reflexivity|].
  split; [discriminate|]. split; [reflexivity|]. split; [reflexivity|].
  split; [reflexivity|]. discriminate.
Qed.

(** C5, amended: for an object declaration whose locator holds an [@], the
    name is the text of the locator before its first [@] and the expected
    version is the text between the first [@] and the next [@] or the end,
    whatever the [id] and [version] properties are; with one [@] in the
    locator that is all the text after it.  For every declaration with a
    non-empty [id], the folder of the record and of the two files probed is
    that id, and the name of the record is the parsed name. *)
Theorem C5_locator_pieces_and_id_folder (disk : Disk) (ROOT : string) :
  (forall (l : string) (id version : value),
      (0 < Spec.occurrences "@" l)%nat ->
      parsedName (DeclObject (Some l) id version) = Spec.before_first "@" l
      /\ pluginExpectedVersion (DeclObject (Some l) id version) =
           Spec.before_first "@" <$> Spec.after_first "@" l
      /\ ((Spec.occurrences "@" l <= 1)%nat ->
          pluginExpectedVersion (DeclObject (Some l) id version) =
            Spec.after_first "@" l))
  /\ (forall (d : declaration) (i : string),
         decl_id d = Some i -> i <> "" ->
         folderOf d = i
         /\ pluginXmlFile disk ROOT d = path_join disk [ROOT; "plugins"; i; "/plugin.xml"]
         /\ pluginJSONFile disk ROOT d = path_join disk [ROOT; "plugins"; i; "/package.json"]
         /\ match readPlugin disk ROOT d with
            | inr r => pluginFolder r = i /\ pluginName r = parsedName d
            | inl e =>
                getVersionFromJSON disk (path_join disk [ROOT; "plugins"; i; "/package.json"]) = inl e
                \/ getVersionFromXML disk (path_join disk [ROOT; "plugins"; i; "/plugin.xml"]) = inl e
            end).
Proof.
  split.
  - intros l id version Hl. apply indexOf_found in Hl.
    assert (Hnv : pluginNameAndVersion (DeclObject (Some l) id version) = l).
    { unfold pluginNameAndVersion. rewrite Hl, (indexOf_nonempty _ _ Hl). reflexivity. }
    rewrite parsedName_before_first. unfold pluginExpectedVersion. rewrite Hnv.
    split; [reflexivity|]. split; [apply split_second|apply split_second_once].
  - intros d i Hid Hne.
    assert (Hf : folderOf d = i).
    { unfold folderOf. rewrite Hid. simpl.
      destruct (String.eqb_spec i ""); [contradiction|reflexivity]. }
    split; [exact Hf|].
    unfold pluginXmlFile, pluginJSONFile.
    pose proof (readPlugin_outcome disk ROOT d) as H.
    unfold pluginXmlFile, pluginJSONFile in H. rewrite Hf in *.
    split; [reflexivity|]. split; [reflexivity|].
    destruct (readPlugin disk ROOT d) as [e|r]; tauto.
Qed.

(** The amended C5 at the declaration of [bar]: the [version] property
    9.9.9 is not used, and the files are read under [bar-id]. *)
Lemma C5_witness_bar :
  (0 < Spec.occurrences "@" "bar@2.0.0")%nat
  /\ decl_id bar_object = Some "bar-id"
  /\ "bar-id" <> ""
  /\ readPlugin Sample.disk Sample.ROOT bar_object =
       inr {| pluginName := "bar"; pluginFolder := "bar-id";
              expectedVersion := Some "2.0.0";
              installedVersionJson := Some "2.5.0"; installedVersionXml := Some "2.0.0";
              newestVersion := None |}
  /\ parsedName bar_object = Spec.before_first "@" "bar@2.0.0"
  /\ folderOf bar_object = "bar-id".
Proof.
  split; [vm_compute; lia|]. split; [reflexivity|]. split; [discriminate|].
  split; [reflexivity|].
  pose proof (C5_locator_pieces_and_id_folder Sample.disk Sample.ROOT) as [H1 H2].
  split.
  - apply (H1 "bar@2.0.0" (Some "bar-id") (Some "9.9.9")). vm_compute. lia.
  - apply (H2 bar_object "bar-id"); [reflexivity|discriminate].
Defined.

Lemma missing_descriptor_record (disk : Disk) (ROOT : string) (d : declaration) :
  existsSync disk (pluginXmlFile disk ROOT d) = false ->
  readPlugin disk ROOT d =
    inr {| pluginName := parsedName d; pluginFolder := folderOf d;
           expectedVersion := pluginExpectedVersion d;
           installedVersionJson := None; installedVersionXml := None;
           newestVersion := None |}.
Proof. intros H. unfold readPlugin. rewrite H. reflexivity. Qed.

(** C6: when the descriptor of a plugin does not exist, the reader returns
    a record in which both installed versions are absent, whatever the
    manifest holds (the same record is returned on every disk with the same
    paths and the same existing files, also where reading the manifest
    throws); for that record, whatever the newest version is, the reconciler
    pushes a row whose Installed cell is the dash, and no semver call can make
    it throw. *)
Theorem C6_missing_descriptor_skips_manifest
  (disk : Disk) (ROOT : string) (semver : Semver.lib) (d : declaration) :
  existsSync disk (pluginXmlFile disk ROOT d) = false ->
  exists r,
    readPlugin disk ROOT d = inr r
    /\ installedVersionJson r = None
    /\ installedVersionXml r = None
    /\ (forall disk' : Disk,
           (forall parts, path_join disk' parts = path_join disk parts) ->
           (forall file, existsSync disk' file = existsSync disk file) ->
           readPlugin disk' ROOT d = inr r)
    /\ (forall (newest : value) (st : arrays),
           exists name e n ws,
             processPlugin semver (set_newestVersion newest r) st =
               ({| table := table st ++ [[name; e; Plain "-"; n]];
                   warnings := warnings st ++ ws |}, inr tt)).
Proof.
  intros Hx. eexists. split; [apply (missing_descriptor_record _ _ _ Hx)|].
  split; [reflexivity|]. split; [reflexivity|]. split.
  - intros disk' Hp He. apply missing_descriptor_record.
    unfold pluginXmlFile. rewrite Hp, He. exact Hx.
  - intros newest st. rewrite processPlugin_run.
    unfold cells, newestCell, constraintCells, installed. simpl.
    rewrite !andb_false_r. simpl.
    do 4 eexists. reflexivity.
Qed.

(** C6 on a disk where [plugins/gone] holds a manifest that does not parse
    and no descriptor. *)
Lemma C6_witness_half_installed :
  existsSync Sample.half_installed
    (pluginXmlFile Sample.half_installed Sample.ROOT gone_string) = false
  /\ existsSync Sample.half_installed
       (pluginJSONFile Sample.half_installed Sample.ROOT gone_string) = true
  /\ getVersionFromJSON Sample.half_installed
       (pluginJSONFile Sample.half_installed Sample.ROOT gone_string) =
       inl (Error "SyntaxError" "Unexpected end of JSON input")
  /\ exists r,
       readPlugin Sample.half_installed Sample.ROOT gone_string = inr r
       /\ installedVersionJson r = None
       /\ installedVersionXml r = None
       /\ (forall disk' : Disk,
              (forall parts, path_join disk' parts = path_join Sample.half_installed parts) ->
              (forall file, existsSync disk' file = existsSync Sample.half_installed file) ->
              readPlugin disk' Sample.ROOT gone_string = inr r)
       /\ (forall (newest : value) (st : arrays),
              exists name e n ws,
                processPlugin SemverRef.lib (set_newestVersion newest r) st =
                  ({| table := table st ++ [[name; e; Plain "-"; n]];
                      warnings := warnings st ++ ws |}, inr tt)).
Proof.
  split; [reflexivity|]. split; [reflexivity|]. split; [reflexivity|].
  apply (C6_missing_descriptor_skips_manifest Sample.half_installed Sample.ROOT
           SemverRef.lib gone_string).
  reflexivity.
Defined.

(** ** The registry lookup and [main] *)

Lemma lookup_map {A B : Type} (f : A -> B) (l : list A) (k : nat) :
  map f l !! k = f <$> (l !! k).
Proof.
  revert k. induction l as [|a l IH]; intros [|k]; simpl; auto.
Qed.

Section PromiseFacts.

Context {A : Type}.

Lemma first_rejection_some (order : list nat) (ps : list (result A)) (k : nat) (e : error) :
  k ∈ order -> ps !! k = Some (inl e) ->
  exists e' k', first_rejection order ps = Some e'
                /\ k' ∈ order /\ ps !! k' = Some (inl e').
Proof.
  induction order as [|j order IH]; intros Hin Hk.
  - apply elem_of_nil in Hin. contradiction.
  - simpl. destruct (ps !! j) as [[e'|a]|] eqn:Ej.
    + exists e', j. split; [reflexivity|]. split; [left|exact Ej].
    + apply elem_of_cons in Hin as [->|Hin]; [congruence|].
      destruct (IH Hin Hk) as (e' & k' & H1 & H2 & H3).
      exists e', k'. split; [exact H1|]. split; [right; exact H2|exact H3].
    + apply elem_of_cons in Hin as [->|Hin]; [congruence|].
      destruct (IH Hin Hk) as (e' & k' & H1 & H2 & H3).
      exists e', k'. split; [exact H1|]. split; [right; exact H2|exact H3].
Qed.

Lemma first_rejection_none (order : list nat) (ps : list (result A)) :
  (forall k e, ps !! k <> Some (inl e)) -> first_rejection order ps = None.
Proof.
  intros H. induction order as [|j order IH]; simpl; [reflexivity|].
  destruct (ps !! j) as [[e|a]|] eqn:Ej; [|exact IH|exact IH].
  exfalso. exact (H j e Ej).
Qed.

Lemma all_settle_true (order : list nat) (n : nat) :
  (forall k, (k < n)%nat -> k ∈ order) -> all_settle order n = true.
Proof.
  intros H. unfold all_settle. apply forallb_forall. intros k Hk.
  apply bool_decide_eq_true, H. apply in_seq in Hk. lia.
Qed.

Lemma values_some (ps : list (result A)) :
  (forall k e, ps !! k <> Some (inl e)) ->
  exists vs, values ps = Some vs /\ length vs = length ps
             /\ forall k, ps !! k = inr <$> (vs !! k).
Proof.
  induction ps as [|[e|a] ps IH]; intros H; simpl.
  - exists []. split; [reflexivity|]. split; [reflexivity|]. intros k. reflexivity.
  - exfalso. exact (H 0%nat e eq_refl).
  - destruct IH as (vs & Hv & Hl & Hk).
    { intros k e. exact (H (S k) e). }
    exists (a :: vs). rewrite Hv. split; [reflexivity|].
    split; [simpl; congruence|]. intros [|k]; simpl; [reflexivity|apply Hk].
Qed.

End PromiseFacts.

Section AugmentFacts.

Variable newestVersionsArr : list string.

Lemma forEach_set_newest_at (suffix : list string) (n : nat) (all : list PluginRecord) :
  (n + length suffix <= length all)%nat ->
  exists all',
    forEach (fun '(idx, _) => set_newest_at newestVersionsArr idx)
            (imap (fun i x => ((n + i)%nat, x)) suffix) all = (all', inr tt)
    /\ forall k,
        all' !! k =
          if bool_decide (n <= k < n + length suffix)%nat
          then set_newestVersion (newestVersionsArr !! k) <$> (all !! k)
          else all !! k.
Proof.
  revert n all. induction suffix as [|x suffix IH]; intros n all Hlen; simpl in *.
  - exists all. split; [reflexivity|]. intros k.
    rewrite bool_decide_eq_false_2; [reflexivity|lia].
  - unfold mbind, SE_bind. unfold set_newest_at at 1.
    replace (n + 0)%nat with n by lia.
    destruct (all !! n) as [r|] eqn:En.
    2:{ apply lookup_ge_None in En. lia. }
    destruct (IH (S n) (alter (set_newestVersion (newestVersionsArr !! n)) n all))
      as (all' & Hrun & Hk).
    { rewrite length_alter. lia. }
    exists all'. split.
    + rewrite <- Hrun. f_equal. apply imap_ext. intros i y _. simpl.
      f_equal. lia.
    + intros k. rewrite Hk, list_lookup_alter.
      destruct (decide (n = k)) as [->|Hne].
      * rewrite bool_decide_eq_false_2 by lia.
        rewrite bool_decide_eq_true_2 by lia. reflexivity.
      * destruct (bool_decide (S n <= k < S n + length suffix)%nat) eqn:Hb.
        -- apply bool_decide_eq_true in Hb.
           rewrite bool_decide_eq_true_2 by lia. reflexivity.
        -- apply bool_decide_eq_false in Hb.
           rewrite bool_decide_eq_false_2 by lia. reflexivity.
Qed.

Lemma augment_lookup (allPluginsInfo : list PluginRecord) :
  length newestVersionsArr = length allPluginsInfo ->
  exists all',
    augment allPluginsInfo newestVersionsArr = inr all'
    /\ forall k, all' !! k =
                 set_newestVersion (newestVersionsArr !! k) <$> (allPluginsInfo !! k).
Proof.
  intros Hlen. unfold augment.
  destruct (forEach_set_newest_at newestVersionsArr 0 allPluginsInfo)
    as (all' & Hrun & Hk); [simpl; lia|].
  simpl in Hrun.
  replace (imap pair newestVersionsArr)
    with (imap (fun (i : nat) (x : string) => (i, x)) newestVersionsArr)
    by (apply imap_ext; reflexivity).
  rewrite Hrun. exists all'. split; [reflexivity|].
  intros k. rewrite Hk. simpl.
  destruct (bool_decide (0 <= k < length newestVersionsArr)%nat) eqn:Hb; [reflexivity|].
  apply bool_decide_eq_false in Hb.
  rewrite (proj2 (lookup_ge_None allPluginsInfo k)) by lia. reflexivity.
Qed.

End AugmentFacts.

Lemma getNewestVersionsInfoFromNpm_world
  (npmViewPromise : string -> result string) (order : list nat)
  (rs : list PluginRecord) (w : world) :
  getNewestVersionsInfoFromNpm npmViewPromise order rs w =
    (after_lookups npmViewPromise order rs w,
     Promise_all order (allPromisesToNpm npmViewPromise rs)).
Proof.
  unfold getNewestVersionsInfoFromNpm, after_lookups, stderr_write. simpl.
  rewrite <- app_assoc. reflexivity.
Qed.

Lemma augment_filled (npmViewPromise : string -> result string)
  (rs : list PluginRecord) (vs : list string) :
  length vs = length rs ->
  (forall k, allPromisesToNpm npmViewPromise rs !! k = inr <$> (vs !! k)) ->
  augment rs vs = inr (map (filled npmViewPromise) rs).
Proof.
  intros Hlen Hvs.
  destruct (augment_lookup vs rs Hlen) as (all' & Hrun & Hk).
  rewrite Hrun. f_equal. apply list_eq. intros k.
  rewrite Hk, lookup_map. specialize (Hvs k).
  unfold allPromisesToNpm in Hvs. rewrite lookup_map in Hvs.
  destruct (rs !! k) as [r|]; simpl in *; [|reflexivity].
  unfold filled. destruct (vs !! k) as [v|]; simpl in Hvs; [|discriminate].
  injection Hvs as ->. reflexivity.
Qed.

(** C2: the registry stage is an all-or-fail join.  When a lookup that
    settles fails, [Promise.all] is rejected with the error of a failed
    lookup, [postProcessPluginsInfo] does not run and no table is printed:
    whatever the semver package is, the output is the blank line, the error
    and its stack.  When all the lookups settle and succeed, the reconciler
    runs on as many records as were read, in the same order, each with the
    newest version the registry gave for its name, and [main] prints what
    the reconciler returns. *)
Theorem C2_all_or_fail_join
  (disk : Disk) (ROOT : string) (semver : Semver.lib)
  (npmViewPromise : string -> result string) (order : list nat)
  (cordovaPlugins : list declaration) (w : world) (rs : list PluginRecord) :
  readPluginInfoFromDisk disk ROOT cordovaPlugins = inr rs ->
  ((exists k r e, k ∈ order /\ rs !! k = Some r /\ npmViewPromise (pluginName r) = inl e) ->
   exists e',
     (exists k r, k ∈ order /\ rs !! k = Some r /\ npmViewPromise (pluginName r) = inl e')
     /\ getNewestVersionsInfoFromNpm npmViewPromise order rs w =
          (after_lookups npmViewPromise order rs w, Rejected e')
     /\ main disk ROOT semver npmViewPromise order cordovaPlugins w =
          ({| stdout := stdout w ++ [Log (Plain ""); Log (Styled RedBold (toString e'));
                                     LogStack e'];
              stderr := stderr (after_lookups npmViewPromise order rs w) |},
           Chain (Fulfilled tt)))
  /\ ((forall k, (k < length rs)%nat -> k ∈ order) ->
      (forall r, r ∈ rs -> exists v, npmViewPromise (pluginName r) = inr v) ->
      length (map (filled npmViewPromise) rs) = length rs
      /\ (forall k r, rs !! k = Some r ->
            exists v, npmViewPromise (pluginName r) = inr v
                      /\ map (filled npmViewPromise) rs !! k
                         = Some (set_newestVersion (Some v) r))
      /\ main disk ROOT semver npmViewPromise order cordovaPlugins w =
           match postProcessPluginsInfo semver (map (filled npmViewPromise) rs) (stdout w) with
           | (console, inr t) =>
               ({| stdout := console ++ [Log (Plain ""); LogTable t];
                   stderr := stderr (after_lookups npmViewPromise order rs w) |},
                Chain (Fulfilled tt))
           | (console, inl e) =>
               ({| stdout := console ++ [Log (Plain ""); Log (Styled RedBold (toString e));
                                         LogStack e];
                   stderr := stderr (after_lookups npmViewPromise order rs w) |},
                Chain (Fulfilled tt))
           end).
Proof.
  intros Hread. split.
  - intros (k & r & e & Hin & Hk & He).
    assert (Hps : allPromisesToNpm npmViewPromise rs !! k = Some (inl e)).
    { unfold allPromisesToNpm. rewrite lookup_map, Hk. simpl. congruence. }
    destruct (first_rejection_some order _ k e Hin Hps) as (e' & k' & Hfirst & Hin' & Hk').
    exists e'. split.
    { unfold allPromisesToNpm in Hk'. rewrite lookup_map in Hk'.
      destruct (rs !! k') as [r'|] eqn:Er; [|discriminate].
      exists k', r'. simpl in Hk'. split; [exact Hin'|]. split; [exact Er|congruence]. }
    assert (Hget : getNewestVersionsInfoFromNpm npmViewPromise order rs w =
                   (after_lookups npmViewPromise order rs w, Rejected e')).
    { rewrite getNewestVersionsInfoFromNpm_world. unfold Promise_all.
      rewrite Hfirst. reflexivity. }
    split; [exact Hget|].
    unfold main. rewrite Hread. unfold chain. rewrite Hget.
    unfold then_, catch_, print_error, console_log, mbind, SE_bind. simpl.
    rewrite <- !app_assoc. reflexivity.
  - intros Horder Hok.
    assert (Hno : forall k e, allPromisesToNpm npmViewPromise rs !! k <> Some (inl e)).
    { intros k e. unfold allPromisesToNpm. rewrite lookup_map.
      destruct (rs !! k) as [r|] eqn:Er; [|discriminate]. simpl.
      destruct (Hok r) as [v Hv]; [apply list_elem_of_lookup; eauto|].
      rewrite Hv. discriminate. }
    split; [apply length_map|]. split.
    { intros k r Hk. destruct (Hok r) as [v Hv]; [apply list_elem_of_lookup; eauto|].
      exists v. split; [exact Hv|]. rewrite lookup_map, Hk. simpl.
      unfold filled. rewrite Hv. reflexivity. }
    destruct (values_some _ Hno) as (vs & Hvs & Hlen & Hlook).
    assert (Hget : getNewestVersionsInfoFromNpm npmViewPromise order rs w =
                   (after_lookups npmViewPromise order rs w, Fulfilled vs)).
    { rewrite getNewestVersionsInfoFromNpm_world. unfold Promise_all.
      rewrite (first_rejection_none order _ Hno), all_settle_true, Hvs; [reflexivity|].
      unfold allPromisesToNpm. rewrite length_map. exact Horder. }
    unfold allPromisesToNpm in Hlen. rewrite length_map in Hlen.
    unfold main. rewrite Hread. unfold chain. rewrite Hget.
    unfold then_ at 3. unfold lift.
    rewrite (augment_filled npmViewPromise rs vs Hlen Hlook).
    unfold then_ at 2. unfold on_stdout. simpl.
    destruct (postProcessPluginsInfo semver (map (filled npmViewPromise) rs) (stdout w))
      as [console [e|t]]; simpl;
      unfold then_, catch_, print_error, print_table, console_log, mbind, SE_bind; simpl;
      rewrite <- !app_assoc; reflexivity.
Qed.

(** C2 on the sample project: with the unknown plugin [gone] declared, the
    run prints the registry's error and no table, although the two other
    lookups succeed and settle first; without it, the reconciler receives
    the two records with 1.2.0 and 2.5.0 filled in and the table is
    printed. *)
Lemma C2_witness_sample_project :
  (readPluginInfoFromDisk Sample.disk Sample.ROOT (sample_plugins ++ [gone_string])
     = inr (sample_records ++ [gone_record])
   /\ main Sample.disk Sample.ROOT SemverRef.lib Sample.npmViewPromise [1; 0; 2]%nat
        (sample_plugins ++ [gone_string]) Sample.w0 =
        ({| stdout := [Log (Plain "");
                       Log (Styled RedBold "Error: Registry returned 404 for GET on gone");
                       LogStack (Error "Error" "Registry returned 404 for GET on gone")];
            stderr := ["fetching info from npm"; "."; "."] |},
         Chain (Fulfilled tt)))
  /\ (readPluginInfoFromDisk Sample.disk Sample.ROOT sample_plugins = inr sample_records
      /\ map (filled Sample.npmViewPromise) sample_records =
           [set_newestVersion (Some "1.2.0") foo_record;
            set_newestVersion (Some "2.5.0")
              (set_expectedVersion (Some "2.0.0") bar_record)]
      /\ main Sample.disk Sample.ROOT SemverRef.lib Sample.npmViewPromise [1; 0]%nat
           sample_plugins Sample.w0 =
           match postProcessPluginsInfo SemverRef.lib
                   (map (filled Sample.npmViewPromise) sample_records) [] with
           | (console, inr t) =>
               ({| stdout := console ++ [Log (Plain ""); LogTable t];
                   stderr := ["fetching info from npm"; "."; "."] |},
                Chain (Fulfilled tt))
           | (console, inl e) =>
               ({| stdout := console ++ [Log (Plain ""); Log (Styled RedBold (toString e));
                                         LogStack e];
                   stderr := ["fetching info from npm"; "."; "."] |},
                Chain (Fulfilled tt))
           end).
Proof.
  split.
  - split; [reflexivity|].
    destruct (proj1 (C2_all_or_fail_join Sample.disk Sample.ROOT SemverRef.lib
                       Sample.npmViewPromise [1; 0; 2]%nat
                       (sample_plugins ++ [gone_string]) Sample.w0
                       (sample_records ++ [gone_record]) eq_refl))
      as (e' & _ & _ & Hmain).
    + exists 2%nat, gone_record, (Error "Error" "Registry returned 404 for GET on gone").
      split; [|split; reflexivity].
      apply elem_of_cons; right. apply elem_of_cons; right. apply elem_of_cons; left.
      reflexivity.
    + reflexivity.
  - split; [reflexivity|]. split; [reflexivity|].
    apply (proj2 (C2_all_or_fail_join Sample.disk Sample.ROOT SemverRef.lib
                    Sample.npmViewPromise [1; 0]%nat sample_plugins Sample.w0
                    sample_records eq_refl)).
    + intros k Hk. simpl in Hk.
      destruct k as [|[|k]]; [| |lia].
      * apply elem_of_cons; right. apply elem_of_cons; left. reflexivity.
      * apply elem_of_cons; left. reflexivity.
    + intros r Hr. unfold sample_records in Hr.
      apply elem_of_cons in Hr as [->|Hr]; [exists "1.2.0"; reflexivity|].
      apply elem_of_cons in Hr as [->|Hr]; [exists "2.5.0"; reflexivity|].
      apply elem_of_nil in Hr. contradiction.
Defined.

(** * Further properties of the code *)

(** ** The reader on a list of declarations *)

Lemma readPluginInfoFromDisk_cons (disk : Disk) (ROOT : string)
  (d : declaration) (ds : list declaration) :
  readPluginInfoFromDisk disk ROOT (d :: ds) =
    match readPlugin disk ROOT d with
    | inl e => inl e
    | inr r =>
        match readPluginInfoFromDisk disk ROOT ds with
        | inl e => inl e
        | inr rs => inr (r :: rs)
        end
    end.
Proof.
  simpl. unfold mbind, result_bind.
  destruct (readPlugin disk ROOT d); [reflexivity|].
  destruct (readPluginInfoFromDisk disk ROOT ds); reflexivity.
Qed.


(** X2: a file that does not parse ends the run before the promise chain:
    when reading a declared plugin throws and the declarations before it are
    read, [readPluginInfoFromDisk] throws that error, and [main] ends with the
    exception uncaught, having written nothing to either stream: no lookup is
    started and the handler of the chain does not print the error. *)
Theorem X2_unreadable_file_is_not_caught
  (disk : Disk) (ROOT : string) (semver : Semver.lib)
  (npmViewPromise : string -> result string) (order : list nat)
  (before after : list declaration) (d : declaration) (e : error) (w : world) :
  Forall (fun d' => exists r, readPlugin disk ROOT d' = inr r) before ->
  readPlugin disk ROOT d = inl e ->
  readPluginInfoFromDisk disk ROOT (before ++ d :: after) = inl e
  /\ main disk ROOT semver npmViewPromise order (before ++ d :: after) w = (w, Uncaught e).
Proof.
  intros Hb Hd.
  assert (Hread : readPluginInfoFromDisk disk ROOT (before ++ d :: after) = inl e).
  { induction Hb as [|d' before [r Hr] _ IH].
    - simpl app. rewrite readPluginInfoFromDisk_cons, Hd. reflexivity.
    - simpl app. rewrite readPluginInfoFromDisk_cons, Hr, IH. reflexivity. }
  split; [exact Hread|]. unfold main. rewrite Hread. reflexivity.
Qed.

(** X2 on the disk whose manifest of [foo] does not parse, with [foo]
    declared after a plugin that is not installed. *)
Lemma X2_witness_broken_manifest :
  Forall (fun d' => exists r, readPlugin broken_manifest Sample.ROOT d' = inr r) [gone_string]
  /\ readPlugin broken_manifest Sample.ROOT (DeclString "foo@1.0.0") =
       inl (Error "SyntaxError" "Unexpected end of JSON input")
  /\ main broken_manifest Sample.ROOT SemverRef.lib Sample.npmViewPromise [0; 1; 2]%nat
       ([gone_string] ++ DeclString "foo@1.0.0" :: [DeclString "bar"]) Sample.w0 =
       (Sample.w0, Uncaught (Error "SyntaxError" "Unexpected end of JSON input")).
Proof.
  assert (Hb : Forall (fun d' => exists r, readPlugin broken_manifest Sample.ROOT d' = inr r)
                 [gone_string]).
  { constructor; [eexists; reflexivity|constructor]. }
  split; [exact Hb|]. split; [reflexivity|].
  exact (proj2 (X2_unreadable_file_is_not_caught broken_manifest Sample.ROOT SemverRef.lib
                  Sample.npmViewPromise [0; 1; 2]%nat [gone_string] [DeclString "bar"]
                  (DeclString "foo@1.0.0") _ Sample.w0 Hb eq_refl)).
Defined.

(** ** Declarations, parsed *)

Lemma before_after_first (sep : ascii) (s t : string) :
  Spec.after_first sep s = Some t -> Spec.before_first sep s +:+ String sep t = s.
Proof.
  induction s as [|c s IH]; simpl; [discriminate|].
  destruct (Ascii.eqb_spec c sep) as [->|Hne]; simpl.
  - intros H. injection H as ->. reflexivity.
  - intros H. change (String c (Spec.before_first sep s +:+ String sep t) = String c s).
    f_equal. exact (IH H).
Qed.

Lemma before_first_append (sep : ascii) (a b : string) :
  Spec.occurrences sep a = 0%nat -> Spec.before_first sep (a +:+ String sep b) = a.
Proof.
  induction a as [|c a IH]; simpl.
  - rewrite Ascii.eqb_refl. reflexivity.
  - destruct (Ascii.eqb c sep); simpl; [discriminate|].
    intros H.
    change (String c (Spec.before_first sep (a +:+ String sep b)) = String c a).
    f_equal. exact (IH H).
Qed.

Lemma after_first_append (sep : ascii) (a b : string) :
  Spec.occurrences sep a = 0%nat -> Spec.after_first sep (a +:+ String sep b) = Some b.
Proof.
  induction a as [|c a IH]; simpl.
  - rewrite Ascii.eqb_refl. reflexivity.
  - destruct (Ascii.eqb c sep); simpl; [discriminate|exact IH].
Qed.

Lemma pluginNameAndVersion_synthesized (locator id version : value) :
  Spec.occurrences "@" (the locator) = 0%nat ->
  pluginNameAndVersion (DeclObject locator id version) =
    concat_value id +:+ "@" +:+ or_lit version "".
Proof.
  intros Hl. unfold pluginNameAndVersion.
  destruct locator as [l|]; [|reflexivity]. simpl in Hl.
  destruct (indexOf "@" l >? -1)%Z eqn:E.
  - apply indexOf_found in E. lia.
  - rewrite andb_false_r. reflexivity.
Qed.

(** X3: a declaration without an [id] (every string declaration, and an
    object whose [id] is absent or empty) gives a record whose folder is its
    name; the reconciler then pushes no name-mismatch warning for it and
    shows its name without a folder in parentheses. *)
Theorem X3_no_id_no_name_mismatch
  (disk : Disk) (ROOT : string) (semver : Semver.lib) (d : declaration)
  (r : PluginRecord) (newest : value) (st : arrays) :
  decl_id d = None \/ decl_id d = Some "" ->
  readPlugin disk ROOT d = inr r ->
  pluginFolder r = pluginName r
  /\ warnings (fst (processPlugin semver (set_newestVersion newest r) st)) =
       warnings st ++
       (if versions_differ r
        then [warning1 (pluginName r) (the (installedVersionJson r))
                (the (installedVersionXml r))]
        else [])
  /\ match processPlugin semver (set_newestVersion newest r) st with
     | (st', inr _) =>
         exists e i n, table st' = table st ++ [[Plain (pluginName r); e; i; n]]
     | (st', inl _) => table st' = table st
     end.
Proof.
  intros Hid Hread.
  pose proof (readPlugin_outcome disk ROOT d) as H. rewrite Hread in H.
  destruct H as (Hn & Hf & _).
  assert (Hsame : pluginFolder r = pluginName r).
  { rewrite Hf, Hn. unfold folderOf. destruct Hid as [-> | ->]; reflexivity. }
  split; [exact Hsame|].
  pose proof (processPlugin_outcome semver (set_newestVersion newest r) st) as Hp.
  assert (Hnd : names_differ (set_newestVersion newest r) = false).
  { unfold names_differ. simpl. apply bool_decide_eq_false. intros Hne. apply Hne.
    symmetry. exact Hsame. }
  assert (Hw : recordWarnings (set_newestVersion newest r) =
               if versions_differ r
               then [warning1 (pluginName r) (the (installedVersionJson r))
                       (the (installedVersionXml r))]
               else []).
  { unfold recordWarnings. rewrite Hnd, app_nil_r. reflexivity. }
  destruct (processPlugin semver (set_newestVersion newest r) st) as [st' [e|[]]]; simpl.
  - destruct Hp as (_ & Ht & Hws). rewrite Hws, Hw. split; [reflexivity|exact Ht].
  - destruct Hp as (row & Hrow & Ht & Hws). rewrite Hws, Hw. split; [reflexivity|].
    unfold cells, displayName in Hrow. rewrite Hnd in Hrow.
    unfold mbind, result_bind, mret, result_ret in Hrow.
    destruct (newestCell semver _) as [?|n]; [discriminate|].
    destruct (constraintCells semver _) as [?|[i e]]; [discriminate|].
    injection Hrow as <-. do 3 eexists. exact Ht.
Qed.

(** X3 at the string declaration of [foo] on the sample disk. *)
Lemma X3_witness_foo :
  decl_id (DeclString "foo@1.0.0") = None
  /\ readPlugin Sample.disk Sample.ROOT (DeclString "foo@1.0.0") =
       inr (set_newestVersion None foo_record)
  /\ pluginFolder (set_newestVersion None foo_record)
     = pluginName (set_newestVersion None foo_record)
  /\ warnings (fst (processPlugin SemverRef.lib
                      (set_newestVersion (Some "1.2.0") (set_newestVersion None foo_record))
                      no_arrays)) = [].
Proof.
  split; [reflexivity|]. split; [reflexivity|].
  destruct (X3_no_id_no_name_mismatch Sample.disk Sample.ROOT SemverRef.lib
              (DeclString "foo@1.0.0") (set_newestVersion None foo_record)
              (Some "1.2.0") no_arrays (or_introl eq_refl) eq_refl) as (H1 & H2 & _).
  split; [exact H1|exact H2].
Defined.

(** X4: the name and the version read from a string declaration put the
    declaration together again: without an [@] the name is the whole
    declaration and the version is absent; with one [@] the declaration is
    name, [@], version. *)
Theorem X4_name_and_version_reassemble (s : string) :
  (Spec.occurrences "@" s = 0%nat ->
   parsedName (DeclString s) = s /\ pluginExpectedVersion (DeclString s) = None)
  /\ (Spec.occurrences "@" s = 1%nat ->
      exists v, pluginExpectedVersion (DeclString s) = Some v
                /\ parsedName (DeclString s) +:+ "@" +:+ v = s).
Proof.
  rewrite parsedName_before_first. unfold pluginExpectedVersion. simpl. split.
  - intros H0. split; [apply before_first_none; exact H0|].
    rewrite split_second_once by lia. apply after_first_none. exact H0.
  - intros H1. rewrite split_second_once by lia.
    destruct (Spec.after_first "@" s) as [t|] eqn:E.
    + exists t. split; [reflexivity|]. apply (before_after_first "@" s t E).
    + apply after_first_none in E. lia.
Qed.

(** X4 at the declaration [cordova-plugin-calendar@4.5.1]. *)
Lemma X4_witness_calendar :
  Spec.occurrences "@" "cordova-plugin-calendar@4.5.1" = 1%nat
  /\ exists v, pluginExpectedVersion (DeclString "cordova-plugin-calendar@4.5.1") = Some v
               /\ parsedName (DeclString "cordova-plugin-calendar@4.5.1") +:+ "@" +:+ v
                  = "cordova-plugin-calendar@4.5.1".
Proof.
  split; [reflexivity|].
  apply (proj2 (X4_name_and_version_reassemble "cordova-plugin-calendar@4.5.1")).
  reflexivity.
Defined.

(** X5: an object declaration whose locator holds no [@] (a git locator)
    is read from its [id] and [version] alone: with a non-empty [id] and no
    [@] in [id] and [version], the name and the folder are the [id] and the
    expected version is the [version], or the empty string without one.  The
    text of the locator is not used. *)
Theorem X5_git_locator_read_from_id_and_version
  (locator version : value) (id : string) :
  Spec.occurrences "@" (the locator) = 0%nat ->
  id <> "" ->
  Spec.occurrences "@" id = 0%nat ->
  Spec.occurrences "@" (or_lit version "") = 0%nat ->
  parsedName (DeclObject locator (Some id) version) = id
  /\ folderOf (DeclObject locator (Some id) version) = id
  /\ pluginExpectedVersion (DeclObject locator (Some id) version)
     = Some (or_lit version "")
  /\ forall locator',
       Spec.occurrences "@" (the locator') = 0%nat ->
       pluginNameAndVersion (DeclObject locator' (Some id) version)
       = pluginNameAndVersion (DeclObject locator (Some id) version).
Proof.
  intros Hl Hne Hid Hv.
  assert (Hnv := pluginNameAndVersion_synthesized locator (Some id) version Hl).
  change (pluginNameAndVersion (DeclObject locator (Some id) version)
          = id +:+ String "@" (or_lit version "")) in Hnv.
  split; [|split; [|split]].
  - rewrite parsedName_before_first, Hnv. apply (before_first_append "@" _ _ Hid).
  - unfold folderOf. simpl. destruct (String.eqb_spec id ""); [contradiction|reflexivity].
  - unfold pluginExpectedVersion. rewrite Hnv, split_second.
    rewrite (after_first_append "@" id _ Hid). simpl.
    rewrite before_first_none by exact Hv. reflexivity.
  - intros locator' Hl'. rewrite Hnv.
    apply (pluginNameAndVersion_synthesized locator' (Some id) version Hl').
Qed.

(** X5 at the declaration of the googleplus plugin. *)
Lemma X5_witness_googleplus :
  readPlugin Sample.disk Sample.ROOT git_object =
    inr {| pluginName := "cordova-plugin-googleplus";
           pluginFolder := "cordova-plugin-googleplus";
           expectedVersion := Some "5.0.0";
           installedVersionJson := None; installedVersionXml := None;
           newestVersion := None |}
  /\ parsedName git_object = "cordova-plugin-googleplus"
  /\ folderOf git_object = "cordova-plugin-googleplus"
  /\ pluginExpectedVersion git_object = Some (or_lit (Some "5.0.0") "").
Proof.
  split; [reflexivity|].
  destruct (X5_git_locator_read_from_id_and_version
              (Some "https://github.com/EddyVerbruggen/cordova-plugin-googleplus#ecdb527")
              (Some "5.0.0") "cordova-plugin-googleplus")
    as (H1 & H2 & H3 & _); try reflexivity; [discriminate|].
  split; [exact H1|]. split; [exact H2|exact H3].
Defined.



(** ** A descriptor without a manifest *)

(** X7: when the descriptor of a plugin exists and its manifest does not,
    the manifest is not read (the record is the same on every disk with the
    same paths, files and descriptors, also where reading a manifest throws):
    the manifest version of the record is absent, its descriptor version is
    the one of the descriptor, which is then the installed version, and no
    version-mismatch warning is due. *)
Theorem X7_manifest_absent_uses_descriptor
  (disk : Disk) (ROOT : string) (d : declaration) (v : value) :
  existsSync disk (pluginXmlFile disk ROOT d) = true ->
  existsSync disk (pluginJSONFile disk ROOT d) = false ->
  plugin_attr_version disk (pluginXmlFile disk ROOT d) = inr v ->
  exists r,
    readPlugin disk ROOT d = inr r
    /\ installedVersionJson r = None
    /\ installedVersionXml r = v
    /\ installed r = v
    /\ versions_differ r = false
    /\ (forall disk' : Disk,
           (forall parts, path_join disk' parts = path_join disk parts) ->
           (forall file, existsSync disk' file = existsSync disk file) ->
           (forall file, plugin_attr_version disk' file = plugin_attr_version disk file) ->
           readPlugin disk' ROOT d = inr r).
Proof.
  intros Hx Hj Hv.
  assert (Hrun : forall disk' : Disk,
             (forall parts, path_join disk' parts = path_join disk parts) ->
             (forall file, existsSync disk' file = existsSync disk file) ->
             (forall file, plugin_attr_version disk' file = plugin_attr_version disk file) ->
             readPlugin disk' ROOT d =
               inr {| pluginName := parsedName d; pluginFolder := folderOf d;
                      expectedVersion := pluginExpectedVersion d;
                      installedVersionJson := None; installedVersionXml := v;
                      newestVersion := None |}).
  { intros disk' Hp He Ha.
    unfold readPlugin, getVersionFromJSON, getVersionFromXML, pluginXmlFile, pluginJSONFile.
    rewrite !Hp, !He, Ha.
    unfold pluginXmlFile in Hx, Hv. unfold pluginJSONFile in Hj.
    rewrite Hx, Hj, Hv. reflexivity. }
  eexists. split; [apply (Hrun disk); reflexivity|].
  split; [reflexivity|]. split; [reflexivity|]. split; [reflexivity|].
  split; [reflexivity|exact Hrun].
Qed.

(** X7 on the disk that holds only the descriptor of [foo]. *)
Lemma X7_witness_descriptor_only :
  existsSync descriptor_only
    (pluginXmlFile descriptor_only Sample.ROOT (DeclString "foo@1.0.0")) = true
  /\ existsSync descriptor_only
       (pluginJSONFile descriptor_only Sample.ROOT (DeclString "foo@1.0.0")) = false
  /\ plugin_attr_version descriptor_only
       (pluginXmlFile descriptor_only Sample.ROOT (DeclString "foo@1.0.0")) = inr (Some "1.0.0")
  /\ exists r,
       readPlugin descriptor_only Sample.ROOT (DeclString "foo@1.0.0") = inr r
       /\ installedVersionJson r = None
       /\ installedVersionXml r = Some "1.0.0"
       /\ installed r = Some "1.0.0".
Proof.
  split; [reflexivity|]. split; [reflexivity|]. split; [reflexivity|].
  destruct (X7_manifest_absent_uses_descriptor descriptor_only Sample.ROOT
              (DeclString "foo@1.0.0") (Some "1.0.0") eq_refl eq_refl eq_refl)
    as (r & H1 & H2 & H3 & H4 & _).
  exists r. tauto.
Defined.

(** ** The cells of a row *)

Lemma or_lit_the (v : value) : truthy v = true -> or_lit v "-" = the v.
Proof. destruct v as [s|]; simpl; [|discriminate]. intros ->. reflexivity. Qed.

Lemma or_lit_not_empty (v : value) : or_lit v "-" <> "".
Proof.
  destruct v as [s|]; simpl; [|discriminate].
  destruct (String.eqb_spec s ""); simpl; [discriminate|assumption].
Qed.

Lemma or_dash_plain_text (v : value) : or_dash (plain v) = Plain (or_lit v "-").
Proof.
  destruct v as [s|]; simpl; [|reflexivity].
  destruct (String.eqb s ""); reflexivity.
Qed.

Lemma newestCell_text (semver : Semver.lib) (r : PluginRecord) (n : option text) :
  newestCell semver r = inr n ->
  text_string (or_dash n) = or_lit (newestVersion r) "-".
Proof.
  unfold newestCell.
  destruct (truthy (newestVersion r) && truthy (installed r)) eqn:Hb.
  - apply andb_prop in Hb as [Hn _]. rewrite (or_lit_the _ Hn).
    destruct (Semver.compare semver _ _) as [?|[]]; [discriminate| | |];
      intros H; injection H as <-; try reflexivity.
    rewrite (or_dash_plain _ Hn). reflexivity.
  - intros H. injection H as <-. rewrite or_dash_plain_text. reflexivity.
Qed.

Lemma constraintCells_text (semver : Semver.lib) (r : PluginRecord) (i e : option text) :
  constraintCells semver r = inr (i, e) ->
  text_string (or_dash i) = or_lit (installed r) "-"
  /\ text_string (or_dash e) = or_lit (expectedVersion r) "-".
Proof.
  unfold constraintCells.
  destruct (truthy (expectedVersion r) && truthy (installed r)) eqn:Hb.
  - apply andb_prop in Hb as [He Hi].
    rewrite (or_lit_the _ He), (or_lit_the _ Hi).
    destruct (Semver.gtr semver _ _) as [?|[]]; [discriminate| |].
    + intros H. injection H as <- <-. rewrite (or_dash_plain _ He). split; reflexivity.
    + destruct (Semver.ltr semver _ _) as [?|[]]; [discriminate| |];
        intros H; injection H as <- <-;
        rewrite ?(or_dash_plain _ He), ?(or_dash_plain _ Hi); split; reflexivity.
  - intros H. injection H as <- <-. rewrite !or_dash_plain_text. split; reflexivity.
Qed.

(** X8: in every row pushed, the Expected, Installed and Newest cells show
    the expected, the installed and the newest version of the record, or a
    dash for one that is absent or empty: an emphasis never changes the text
    of a cell, and none of these three cells is ever empty. *)
Theorem X8_version_cells_show_version_or_dash
  (semver : Semver.lib) (r : PluginRecord) (st : arrays) :
  match processPlugin semver r st with
  | (st', inr _) =>
      exists name e i n,
        table st' = table st ++ [[name; e; i; n]]
        /\ text_string e = or_lit (expectedVersion r) "-"
        /\ text_string i = or_lit (JS.or (installedVersionJson r) (installedVersionXml r)) "-"
        /\ text_string n = or_lit (newestVersion r) "-"
        /\ text_string e <> "" /\ text_string i <> "" /\ text_string n <> ""
  | (st', inl _) => table st' = table st
  end.
Proof.
  pose proof (processPlugin_outcome semver r st) as H.
  destruct (processPlugin semver r st) as [st' [err|[]]]; [tauto|].
  destruct H as (row & Hrow & Ht & _).
  unfold cells in Hrow. unfold mbind, result_bind, mret, result_ret in Hrow.
  destruct (newestCell semver r) as [?|n] eqn:Hn; [discriminate|].
  destruct (constraintCells semver r) as [?|[i e]] eqn:Hc; [discriminate|].
  injection Hrow as <-. simpl in Ht.
  destruct (constraintCells_text semver r i e Hc) as [Hi He].
  pose proof (newestCell_text semver r n Hn) as Hnt.
  do 4 eexists. split; [exact Ht|].
  rewrite He, Hi, Hnt. unfold installed.
  repeat split; try reflexivity; apply or_lit_not_empty.
Qed.

(** ** Records without an installed version *)

Lemma cells_not_installed (semver : Semver.lib) (r : PluginRecord) :
  truthy (installed r) = false -> cells semver r = inr (plain_row r).
Proof.
  intros Hi. unfold cells, newestCell, constraintCells, plain_row.
  rewrite Hi, !andb_false_r. simpl.
  rewrite !or_dash_plain_text. reflexivity.
Qed.

Lemma thrown_not_installed (semver : Semver.lib) (rs : list PluginRecord) :
  Forall (fun r => truthy (installed r) = false) rs ->
  thrown semver rs = None /\ rowsOf semver rs = map plain_row rs.
Proof.
  induction 1 as [|r rs Hr _ [IH1 IH2]]; simpl; [auto|].
  rewrite (cells_not_installed semver r Hr), IH1, IH2. auto.
Qed.

(** X9: on records none of which has an installed version, the reconciler
    makes no semver call: whatever the semver package is, it completes, every
    row is without emphasis, with a dash as Installed cell, and only
    name-mismatch warnings are printed. *)
Theorem X9_nothing_installed_never_throws
  (semver : Semver.lib) (rs : list PluginRecord) (console : list output) :
  Forall (fun r => truthy (installedVersionJson r) = false
                   /\ truthy (installedVersionXml r) = false) rs ->
  postProcessPluginsInfo semver rs console =
    (console ++ [Log (Plain "")]
     ++ map (fun msg => Log (Styled YellowBold msg))
          (flat_map (fun r => if bool_decide (pluginName r <> pluginFolder r)
                              then [warning2 (pluginName r) (pluginFolder r)]
                              else []) rs)
     ++ notices,
     inr {| head := ["Plugin name"; "Expected"; "Installed"; "Newest"];
            rows := map (fun r => [ Plain (displayName r);
                                    Plain (or_lit (expectedVersion r) "-");
                                    Plain "-";
                                    Plain (or_lit (newestVersion r) "-") ]) rs |}).
Proof.
  intros H.
  assert (Hi : Forall (fun r => truthy (installed r) = false) rs).
  { eapply Forall_impl; [exact H|]. intros r [Hj Hx]. unfold installed, JS.or.
    rewrite Hj. exact Hx. }
  assert (Hw : flat_map recordWarnings rs =
               flat_map (fun r => if bool_decide (pluginName r <> pluginFolder r)
                                  then [warning2 (pluginName r) (pluginFolder r)]
                                  else []) rs).
  { clear Hi. induction H as [|r rs [Hj Hx] _ IH]; simpl; [reflexivity|].
    rewrite IH. unfold recordWarnings, versions_differ, names_differ, name_warning.
    rewrite Hj. reflexivity. }
  assert (Hr : map plain_row rs =
               map (fun r => [ Plain (displayName r);
                               Plain (or_lit (expectedVersion r) "-");
                               Plain "-";
                               Plain (or_lit (newestVersion r) "-") ]) rs).
  { clear H Hw. induction Hi as [|r rs Hr _ IH]; simpl; [reflexivity|].
    rewrite IH. unfold plain_row. destruct (installed r) as [s|] eqn:E; simpl in *.
    - destruct (String.eqb s ""); [reflexivity|discriminate].
    - reflexivity. }
  rewrite postProcessPluginsInfo_run.
  destruct (thrown_not_installed semver rs Hi) as [-> ->].
  unfold warning_lines, table_head. rewrite Hw, Hr. reflexivity.
Qed.

(** X9 on the record of the plugin that is not installed, with a semver
    package whose every call throws. *)
Lemma X9_witness_gone :
  Forall (fun r => truthy (installedVersionJson r) = false
                   /\ truthy (installedVersionXml r) = false)
    [set_newestVersion (Some "1.0.0") gone_record]
  /\ postProcessPluginsInfo
       {| Semver.compare := fun _ _ => inl (TypeError "thrown");
          Semver.gtr := fun _ _ => inl (TypeError "thrown");
          Semver.ltr := fun _ _ => inl (TypeError "thrown") |}
       [set_newestVersion (Some "1.0.0") gone_record] [] =
       ([Log (Plain "")] ++ notices,
        inr {| head := ["Plugin name"; "Expected"; "Installed"; "Newest"];
               rows := [[Plain "gone"; Plain "1.0.0"; Plain "-"; Plain "1.0.0"]] |}).
Proof.
  assert (H : Forall (fun r => truthy (installedVersionJson r) = false
                               /\ truthy (installedVersionXml r) = false)
                [set_newestVersion (Some "1.0.0") gone_record]).
  { constructor; [split; reflexivity|constructor]. }
  split; [exact H|].
  rewrite (X9_nothing_installed_never_throws _ _ [] H). reflexivity.
Defined.

(** ** The run as a whole *)

Lemma chain_rejected (semver : Semver.lib) (npmViewPromise : string -> result string)
  (order : list nat) (rs : list PluginRecord) (w : world) (e : error) :
  Promise_all order (allPromisesToNpm npmViewPromise rs) = Rejected e ->
  chain semver npmViewPromise order rs w =
    ({| stdout := stdout w ++ [Log (Plain ""); Log (Styled RedBold (toString e)); LogStack e];
        stderr := stderr (after_lookups npmViewPromise order rs w) |},
     Fulfilled tt).
Proof.
  intros H. unfold chain. rewrite getNewestVersionsInfoFromNpm_world, H.
  unfold then_, catch_, print_error, console_log, mbind, SE_bind. simpl.
  rewrite <- !app_assoc. reflexivity.
Qed.

Lemma chain_pending (semver : Semver.lib) (npmViewPromise : string -> result string)
  (order : list nat) (rs : list PluginRecord) (w : world) :
  Promise_all order (allPromisesToNpm npmViewPromise rs) = Pending ->
  chain semver npmViewPromise order rs w =
    (after_lookups npmViewPromise order rs w, Pending).
Proof.
  intros H. unfold chain. rewrite getNewestVersionsInfoFromNpm_world, H. reflexivity.
Qed.

Lemma chain_fulfilled (semver : Semver.lib) (npmViewPromise : string -> result string)
  (order : list nat) (rs : list PluginRecord) (w : world) (vs : list string) :
  Promise_all order (allPromisesToNpm npmViewPromise rs) = Fulfilled vs ->
  chain semver npmViewPromise order rs w =
    match augment rs vs with
    | inl e =>
        ({| stdout := stdout w ++ [Log (Plain ""); Log (Styled RedBold (toString e));
                                   LogStack e];
            stderr := stderr (after_lookups npmViewPromise order rs w) |},
         Fulfilled tt)
    | inr rs' =>
        match postProcessPluginsInfo semver rs' (stdout w) with
        | (console, inr t) =>
            ({| stdout := console ++ [Log (Plain ""); LogTable t];
                stderr := stderr (after_lookups npmViewPromise order rs w) |},
             Fulfilled tt)
        | (console, inl e) =>
            ({| stdout := console ++ [Log (Plain ""); Log (Styled RedBold (toString e));
                                      LogStack e];
                stderr := stderr (after_lookups npmViewPromise order rs w) |},
             Fulfilled tt)
        end
    end.
Proof.
  intros H. unfold chain. rewrite getNewestVersionsInfoFromNpm_world, H.
  unfold then_ at 3. unfold lift.
  destruct (augment rs vs) as [e|rs'].
  - unfold then_, catch_, print_error, console_log, mbind, SE_bind. simpl.
    rewrite <- !app_assoc. reflexivity.
  - unfold then_ at 2. unfold on_stdout. simpl.
    destruct (postProcessPluginsInfo semver rs' (stdout w)) as [console [e|t]]; simpl;
      unfold then_, catch_, print_error, print_table, console_log, mbind, SE_bind; simpl;
      rewrite <- !app_assoc; reflexivity.
Qed.


Lemma printed_tables_app (a b : list output) :
  printed_tables (a ++ b) = (printed_tables a + printed_tables b)%nat.
Proof. unfold printed_tables. rewrite List.filter_app, length_app. reflexivity. Qed.

Lemma printed_stacks_app (a b : list output) :
  printed_stacks (a ++ b) = (printed_stacks a + printed_stacks b)%nat.
Proof. unfold printed_stacks. rewrite List.filter_app, length_app. reflexivity. Qed.

Lemma warning_lines_only_logs (rs : list PluginRecord) :
  printed_tables (warning_lines rs) = 0%nat /\ printed_stacks (warning_lines rs) = 0%nat.
Proof.
  unfold warning_lines, printed_tables, printed_stacks.
  induction (flat_map recordWarnings rs) as [|msg l IH]; simpl; [auto|exact IH].
Qed.

Lemma postProcessPluginsInfo_only_logs (semver : Semver.lib) (rs : list PluginRecord)
  (console : list output) :
  exists added,
    fst (postProcessPluginsInfo semver rs console) = console ++ added
    /\ printed_tables added = 0%nat /\ printed_stacks added = 0%nat.
Proof.
  rewrite postProcessPluginsInfo_run.
  destruct (thrown semver rs); simpl.
  - exists [Log (Plain "")]. auto.
  - exists ([Log (Plain "")] ++ warning_lines rs ++ notices).
    split; [reflexivity|].
    rewrite !printed_tables_app, !printed_stacks_app.
    destruct (warning_lines_only_logs rs) as [-> ->]. split; reflexivity.
Qed.

(** X10: with no plugin declared, the run makes no lookup and no semver
    call: it prints the blank line, the notices and an empty table, and
    writes only the progress header to the error stream, whatever the order
    of settling is. *)
Theorem X10_no_plugins_prints_empty_table
  (disk : Disk) (ROOT : string) (semver : Semver.lib)
  (npmViewPromise : string -> result string) (order : list nat) (w : world) :
  main disk ROOT semver npmViewPromise order [] w =
    ({| stdout := stdout w ++ [Log (Plain "")] ++ notices
                  ++ [Log (Plain "");
                      LogTable {| head := ["Plugin name"; "Expected"; "Installed"; "Newest"];
                                  rows := [] |}];
        stderr := stderr w ++ ["fetching info from npm"] |},
     Chain (Fulfilled tt)).
Proof.
  assert (Hp : Promise_all order (allPromisesToNpm npmViewPromise []) = Fulfilled []).
  { unfold Promise_all. simpl.
    rewrite (first_rejection_none order (@nil (result string))); [reflexivity|].
    intros k e H. destruct k; discriminate H. }
  unfold main. simpl readPluginInfoFromDisk. cbv iota.
  rewrite (chain_fulfilled semver npmViewPromise order [] w [] Hp).
  simpl. unfold after_lookups. simpl. rewrite <- !app_assoc. reflexivity.
Qed.

(** X11: every run only adds lines to the output, and among the lines it
    adds there is at most one table or error stack, never both; a run whose
    promise chain settles prints exactly one of the two, a run that ends with
    an uncaught exception or that waits for a lookup for ever prints
    neither. *)
Theorem X11_table_or_error_never_both
  (disk : Disk) (ROOT : string) (semver : Semver.lib)
  (npmViewPromise : string -> result string) (order : list nat)
  (cordovaPlugins : list declaration) (w : world) :
  exists added,
    stdout (fst (main disk ROOT semver npmViewPromise order cordovaPlugins w))
    = stdout w ++ added
    /\ (printed_tables added + printed_stacks added <= 1)%nat
    /\ (printed_tables added + printed_stacks added = 1%nat <->
        snd (main disk ROOT semver npmViewPromise order cordovaPlugins w)
        = Chain (Fulfilled tt)).
Proof.
  unfold main.
  destruct (readPluginInfoFromDisk disk ROOT cordovaPlugins) as [e|rs].
  { exists []. simpl. rewrite app_nil_r. split; [reflexivity|].
    unfold printed_tables, printed_stacks. simpl.
    split; [lia|]. split; intros H; discriminate H. }
  destruct (Promise_all order (allPromisesToNpm npmViewPromise rs)) as [vs|e|] eqn:Hp.
  - rewrite (chain_fulfilled _ _ _ _ _ _ Hp).
    destruct (augment rs vs) as [e|rs'].
    + eexists. simpl. split; [reflexivity|].
      unfold printed_tables, printed_stacks. simpl. split; [lia|tauto].
    + destruct (postProcessPluginsInfo_only_logs semver rs' (stdout w))
        as (added & Hadd & Ht & Hs).
      destruct (postProcessPluginsInfo semver rs' (stdout w)) as [console [e|t]];
        simpl in Hadd; subst console; simpl.
      * exists (added ++ [Log (Plain ""); Log (Styled RedBold (toString e)); LogStack e]).
        rewrite <- app_assoc. split; [reflexivity|].
        rewrite printed_tables_app, printed_stacks_app, Ht, Hs.
        unfold printed_tables, printed_stacks. simpl. split; [lia|tauto].
      * exists (added ++ [Log (Plain ""); LogTable t]).
        rewrite <- app_assoc. split; [reflexivity|].
        rewrite printed_tables_app, printed_stacks_app, Ht, Hs.
        unfold printed_tables, printed_stacks. simpl. split; [lia|tauto].
  - rewrite (chain_rejected _ _ _ _ _ _ Hp).
    eexists. simpl. split; [reflexivity|].
    unfold printed_tables, printed_stacks. simpl. split; [lia|tauto].
  - rewrite (chain_pending _ _ _ _ _ Hp).
    exists []. simpl. rewrite app_nil_r. split; [reflexivity|].
    unfold printed_tables, printed_stacks. simpl.
    split; [lia|]. split; intros H; discriminate H.
Qed.

(** ** Lookups that fail, and lookups that never settle *)

Lemma first_rejection_app {A : Type} (before after : list nat) (ps : list (result A)) :
  (forall j e, j ∈ before -> ps !! j <> Some (inl e)) ->
  first_rejection (before ++ after) ps = first_rejection after ps.
Proof.
  induction before as [|j before IH]; intros H; simpl; [reflexivity|].
  destruct (ps !! j) as [[e|a]|] eqn:Ej.
  - exfalso. apply (H j e); [left|exact Ej].
  - apply IH. intros j' e Hin. apply H. right. exact Hin.
  - apply IH. intros j' e Hin. apply H. right. exact Hin.
Qed.

Lemma all_settle_false (order : list nat) (n k : nat) :
  (k < n)%nat -> k ∉ order -> all_settle order n = false.
Proof.
  intros Hk Hnot. unfold all_settle.
  destruct (forallb (fun k0 => bool_decide (k0 ∈ order)) (seq 0 n)) eqn:E; [|reflexivity].
  exfalso. apply Hnot.
  assert (Hin : In k (seq 0 n)) by (apply in_seq; lia).
  pose proof (proj1 (forallb_forall _ _) E k Hin) as Hb.
  apply bool_decide_eq_true in Hb. exact Hb.
Qed.

(** X12: there is no timeout on a lookup.  When a lookup never settles and
    none of those that settle fails, the promise chain stays pending: the run
    prints nothing on the output, neither table nor error, whatever the
    lookups that settled returned. *)
Theorem X12_unsettled_lookup_prints_nothing
  (disk : Disk) (ROOT : string) (semver : Semver.lib)
  (npmViewPromise : string -> result string) (order : list nat)
  (cordovaPlugins : list declaration) (w : world) (rs : list PluginRecord) (k : nat) :
  readPluginInfoFromDisk disk ROOT cordovaPlugins = inr rs ->
  (k < length rs)%nat ->
  k ∉ order ->
  (forall j r, j ∈ order -> rs !! j = Some r ->
               exists v, npmViewPromise (pluginName r) = inr v) ->
  main disk ROOT semver npmViewPromise order cordovaPlugins w =
    ({| stdout := stdout w;
        stderr := stderr (after_lookups npmViewPromise order rs w) |},
     Chain Pending).
Proof.
  intros Hread Hk Hnot Hok.
  assert (Hp : Promise_all order (allPromisesToNpm npmViewPromise rs) = Pending).
  { unfold Promise_all.
    rewrite <- (app_nil_r order) at 1. rewrite first_rejection_app.
    - simpl. rewrite (all_settle_false order _ k); [reflexivity| |exact Hnot].
      unfold allPromisesToNpm. rewrite length_map. exact Hk.
    - intros j e Hin. unfold allPromisesToNpm. rewrite lookup_map.
      destruct (rs !! j) as [r|] eqn:Er; [|discriminate]. simpl.
      destruct (Hok j r Hin Er) as [v Hv]. rewrite Hv. discriminate. }
  unfold main. rewrite Hread, (chain_pending _ _ _ _ _ Hp). reflexivity.
Qed.

(** X12 on the sample project when the lookup of [bar] never settles. *)
Lemma X12_witness_bar_never_settles :
  readPluginInfoFromDisk Sample.disk Sample.ROOT sample_plugins = inr sample_records
  /\ main Sample.disk Sample.ROOT SemverRef.lib Sample.npmViewPromise [0]%nat
       sample_plugins Sample.w0 =
       ({| stdout := []; stderr := ["fetching info from npm"; "."] |}, Chain Pending).
Proof.
  split; [reflexivity|].
  rewrite (X12_unsettled_lookup_prints_nothing Sample.disk Sample.ROOT SemverRef.lib
             Sample.npmViewPromise [0]%nat sample_plugins Sample.w0 sample_records 1%nat
             eq_refl).
  - reflexivity.
  - simpl. lia.
  - intros H. apply elem_of_cons in H as [H|H]; [discriminate H|].
    apply elem_of_nil in H. exact H.
  - intros j r Hin Hr. apply elem_of_cons in Hin as [->|Hin].
    + simpl in Hr. injection Hr as <-. exists "1.2.0". reflexivity.
    + apply elem_of_nil in Hin. contradiction.
Defined.

(** X13: when several lookups fail, the error printed is that of the failed
    lookup that settles first: if the lookups that settle before the lookup
    of the record [k] all succeed and that lookup fails with [e], the run
    prints [e] and its stack, and no table. *)
Theorem X13_first_settled_failure_is_reported
  (disk : Disk) (ROOT : string) (semver : Semver.lib)
  (npmViewPromise : string -> result string) (before after : list nat)
  (cordovaPlugins : list declaration) (w : world) (rs : list PluginRecord)
  (k : nat) (r : PluginRecord) (e : error) :
  readPluginInfoFromDisk disk ROOT cordovaPlugins = inr rs ->
  (forall j r', j ∈ before -> rs !! j = Some r' ->
                exists v, npmViewPromise (pluginName r') = inr v) ->
  rs !! k = Some r ->
  npmViewPromise (pluginName r) = inl e ->
  main disk ROOT semver npmViewPromise (before ++ k :: after) cordovaPlugins w =
    ({| stdout := stdout w ++ [Log (Plain ""); Log (Styled RedBold (toString e)); LogStack e];
        stderr := stderr (after_lookups npmViewPromise (before ++ k :: after) rs w) |},
     Chain (Fulfilled tt)).
Proof.
  intros Hread Hok Hk He.
  assert (Hp : Promise_all (before ++ k :: after) (allPromisesToNpm npmViewPromise rs)
               = Rejected e).
  { unfold Promise_all. rewrite first_rejection_app.
    - simpl. unfold allPromisesToNpm. rewrite lookup_map, Hk. simpl. rewrite He.
      reflexivity.
    - intros j e' Hin. unfold allPromisesToNpm. rewrite lookup_map.
      destruct (rs !! j) as [r'|] eqn:Er; [|discriminate]. simpl.
      destruct (Hok j r' Hin Er) as [v Hv]. rewrite Hv. discriminate. }
  unfold main. rewrite Hread, (chain_rejected _ _ _ _ _ _ Hp). reflexivity.
Qed.

(** X13 on three declarations of which two are unknown to the registry; the
    lookup of [lost] settles before that of [gone]. *)
Lemma X13_witness_two_failures :
  readPluginInfoFromDisk Sample.disk Sample.ROOT
    [DeclString "foo@1.0.0"; DeclString "gone@1.0.0"; DeclString "lost"]
  = inr [set_newestVersion None foo_record; gone_record;
         {| pluginName := "lost"; pluginFolder := "lost"; expectedVersion := None;
            installedVersionJson := None; installedVersionXml := None;
            newestVersion := None |}]
  /\ main Sample.disk Sample.ROOT SemverRef.lib Sample.npmViewPromise
       ([0] ++ 2 :: [1])%nat
       [DeclString "foo@1.0.0"; DeclString "gone@1.0.0"; DeclString "lost"] Sample.w0 =
       ({| stdout := [Log (Plain "");
                      Log (Styled RedBold "Error: Registry returned 404 for GET on lost");
                      LogStack (Error "Error" "Registry returned 404 for GET on lost")];
           stderr := ["fetching info from npm"; "."] |},
        Chain (Fulfilled tt)).
Proof.
  split; [reflexivity|].
  rewrite (X13_first_settled_failure_is_reported Sample.disk Sample.ROOT SemverRef.lib
             Sample.npmViewPromise [0]%nat [1]%nat
             [DeclString "foo@1.0.0"; DeclString "gone@1.0.0"; DeclString "lost"]
             Sample.w0
             [set_newestVersion None foo_record; gone_record;
              {| pluginName := "lost"; pluginFolder := "lost"; expectedVersion := None;
                 installedVersionJson := None; installedVersionXml := None;
                 newestVersion := None |}]
             2%nat
             {| pluginName := "lost"; pluginFolder := "lost"; expectedVersion := None;
                installedVersionJson := None; installedVersionXml := None;
                newestVersion := None |}
             (Error "Error" "Registry returned 404 for GET on lost") eq_refl).
  - reflexivity.
  - intros j r' Hin Hr. apply elem_of_cons in Hin as [->|Hin].
    + simpl in Hr. injection Hr as <-. exists "1.2.0". reflexivity.
    + apply elem_of_nil in Hin. contradiction.
  - reflexivity.
  - reflexivity.
Defined.

(** ** The progress dots *)

Lemma flat_map_dots (f : nat -> list string) (l : list nat) :
  (forall k, f k = ["."] \/ f k = []) ->
  exists n, (n <= length l)%nat /\ flat_map f l = replicate n ".".
Proof.
  intros Hf. induction l as [|k l (n & Hn & IH)]; simpl.
  - exists 0%nat. split; [lia|reflexivity].
  - destruct (Hf k) as [-> | ->]; rewrite IH.
    + exists (S n). split; [lia|reflexivity].
    + exists n. split; [lia|reflexivity].
Qed.

Lemma flat_map_all_dots (f : nat -> list string) (l : list nat) :
  (forall k, In k l -> f k = ["."]) -> flat_map f l = replicate (length l) ".".
Proof.
  induction l as [|k l IH]; intros Hf; simpl; [reflexivity|].
  rewrite (Hf k) by (left; reflexivity). rewrite IH; [reflexivity|].
  intros k' Hin. apply Hf. right. exact Hin.
Qed.

(** X14: the registry stage writes nothing to the output; to the error
    stream it writes the header and then only dots, at most one for each
    record, and exactly one for each record when all the lookups settle and
    succeed. *)
Theorem X14_progress_is_header_and_dots
  (npmViewPromise : string -> result string) (order : list nat)
  (rs : list PluginRecord) (w : world) :
  stdout (fst (getNewestVersionsInfoFromNpm npmViewPromise order rs w)) = stdout w
  /\ exists n,
       (n <= length rs)%nat
       /\ stderr (fst (getNewestVersionsInfoFromNpm npmViewPromise order rs w))
          = stderr w ++ "fetching info from npm" :: replicate n "."
       /\ ((forall k, (k < length rs)%nat -> k ∈ order) ->
           (forall r, r ∈ rs -> exists v, npmViewPromise (pluginName r) = inr v) ->
           n = length rs).
Proof.
  rewrite getNewestVersionsInfoFromNpm_world. simpl. split; [reflexivity|].
  set (ps := allPromisesToNpm npmViewPromise rs).
  assert (Hlen : length ps = length rs) by (unfold ps, allPromisesToNpm; apply length_map).
  set (f := fun k => match ps !! k with
                     | Some (inr _) => if bool_decide (k ∈ order) then ["."] else []
                     | _ => []
                     end).
  destruct (flat_map_dots f (seq 0 (length ps))) as (n & Hn & Hdots).
  { intros k. unfold f. destruct (ps !! k) as [[?|?]|]; auto.
    destruct (bool_decide (k ∈ order)); auto. }
  rewrite length_seq, Hlen in Hn.
  exists n. split; [exact Hn|]. split.
  - unfold progress. fold ps. fold f. rewrite Hdots. reflexivity.
  - intros Horder Hok.
    assert (Hall : flat_map f (seq 0 (length ps)) = replicate (length (seq 0 (length ps))) ".").
    { apply flat_map_all_dots. intros k Hin. apply in_seq in Hin. unfold f.
      assert (Hk : (k < length rs)%nat) by lia.
      destruct (rs !! k) as [r|] eqn:Er.
      2:{ apply lookup_ge_None in Er. lia. }
      unfold ps, allPromisesToNpm. rewrite lookup_map, Er. simpl.
      destruct (Hok r) as [v Hv]; [apply list_elem_of_lookup; eauto|].
      rewrite Hv, (bool_decide_eq_true_2 _ (Horder k Hk)). reflexivity. }
    rewrite Hall, length_seq, Hlen in Hdots.
    apply (f_equal length) in Hdots. rewrite !length_replicate in Hdots. lia.
Qed.

(** X14 on the sample project: two lookups, two dots. *)
Lemma X14_witness_two_dots :
  stderr (fst (getNewestVersionsInfoFromNpm Sample.npmViewPromise [1; 0]%nat
                 sample_records Sample.w0))
  = [] ++ "fetching info from npm" :: replicate (length sample_records) ".".
Proof.
  destruct (X14_progress_is_header_and_dots Sample.npmViewPromise [1; 0]%nat
              sample_records Sample.w0) as (_ & n & _ & Herr & Hall).
  rewrite Herr, Hall; [reflexivity| |].
  - intros k Hk. simpl in Hk. destruct k as [|[|k]]; [| |lia].
    + apply elem_of_cons; right. apply elem_of_cons; left. reflexivity.
    + apply elem_of_cons; left. reflexivity.
  - intros r Hr. unfold sample_records in Hr.
    apply elem_of_cons in Hr as [->|Hr]; [exists "1.2.0"; reflexivity|].
    apply elem_of_cons in Hr as [->|Hr]; [exists "2.5.0"; reflexivity|].
    apply elem_of_nil in Hr. contradiction.
Defined.

(** ** Filling in the newest versions *)

Lemma forEach_set_newest_at_throws (newestVersionsArr suffix : list string)
  (n : nat) (all : list PluginRecord) :
  (n <= length all)%nat -> (length all < n + length suffix)%nat ->
  exists all' msg,
    forEach (fun '(idx, _) => set_newest_at newestVersionsArr idx)
            (imap (fun i x => ((n + i)%nat, x)) suffix) all = (all', inl (TypeError msg)).
Proof.
  revert n all. induction suffix as [|x suffix IH]; intros n all Hn Hlen; simpl in *.
  - lia.
  - unfold mbind, SE_bind. unfold set_newest_at at 1.
    replace (n + 0)%nat with n by lia.
    destruct (all !! n) as [r|] eqn:En.
    + apply lookup_lt_Some in En.
      destruct (IH (S n) (alter (set_newestVersion (newestVersionsArr !! n)) n all))
        as (all' & msg & Hrun).
      { rewrite length_alter. lia. }
      { rewrite length_alter. lia. }
      exists all', msg. rewrite <- Hrun. f_equal. apply imap_ext. intros i y _. simpl.
      f_equal. lia.
    + eexists. eexists. reflexivity.
Qed.

Lemma same_lookups_same_length {A : Type} (f : nat -> A -> A) (l l' : list A) (m : nat) :
  (forall k, l' !! k = if bool_decide (k < m)%nat then f k <$> (l !! k) else l !! k) ->
  length l' = length l.
Proof.
  intros H.
  destruct (Nat.lt_trichotomy (length l') (length l)) as [Hlt|[Heq|Hgt]]; [|exact Heq|].
  - exfalso. pose proof (H (length l')) as Hk.
    rewrite (proj2 (lookup_ge_None l' (length l'))) in Hk by lia.
    destruct (lookup_lt_is_Some_2 l (length l') Hlt) as [a Ha]. rewrite Ha in Hk.
    destruct (bool_decide (length l' < m)%nat); discriminate Hk.
  - exfalso. pose proof (H (length l)) as Hk.
    rewrite (proj2 (lookup_ge_None l (length l))) in Hk by lia.
    destruct (lookup_lt_is_Some_2 l' (length l) Hgt) as [a Ha]. rewrite Ha in Hk.
    destruct (bool_decide (length l < m)%nat); discriminate Hk.
Qed.

(** X15: filling in the newest versions (lines 231-236) changes nothing but
    the newest version of a record.  With at most as many versions as
    records, the records keep their number and order, the first ones receive
    the version at their own position and the remaining ones are untouched;
    with more versions than records the callback throws a [TypeError]. *)
Theorem X15_augment_by_position
  (allPluginsInfo : list PluginRecord) (newestVersionsArr : list string) :
  ((length newestVersionsArr <= length allPluginsInfo)%nat ->
   exists all',
     augment allPluginsInfo newestVersionsArr = inr all'
     /\ length all' = length allPluginsInfo
     /\ forall k,
          all' !! k =
            if bool_decide (k < length newestVersionsArr)%nat
            then set_newestVersion (newestVersionsArr !! k) <$> (allPluginsInfo !! k)
            else allPluginsInfo !! k)
  /\ ((length allPluginsInfo < length newestVersionsArr)%nat ->
      exists msg, augment allPluginsInfo newestVersionsArr = inl (TypeError msg)).
Proof.
  split.
  - intros Hlen.
    destruct (forEach_set_newest_at newestVersionsArr newestVersionsArr 0 allPluginsInfo)
      as (all' & Hrun & Hk); [simpl; lia|].
    simpl in Hrun.
    assert (Hlook : forall k,
               all' !! k =
                 if bool_decide (k < length newestVersionsArr)%nat
                 then set_newestVersion (newestVersionsArr !! k) <$> (allPluginsInfo !! k)
                 else allPluginsInfo !! k).
    { intros k. rewrite Hk. simpl.
      destruct (bool_decide (0 <= k < length newestVersionsArr)%nat) eqn:Hb.
      - apply bool_decide_eq_true in Hb. rewrite bool_decide_eq_true_2 by lia. reflexivity.
      - apply bool_decide_eq_false in Hb. rewrite bool_decide_eq_false_2 by lia.
        reflexivity. }
    exists all'. split; [|split; [|exact Hlook]].
    + unfold augment.
      replace (imap pair newestVersionsArr)
        with (imap (fun (i : nat) (x : string) => (i, x)) newestVersionsArr)
        by (apply imap_ext; reflexivity).
      rewrite Hrun. reflexivity.
    + apply (same_lookups_same_length
               (fun k => set_newestVersion (newestVersionsArr !! k))
               allPluginsInfo all' (length newestVersionsArr) Hlook).
  - intros Hlen.
    destruct (forEach_set_newest_at_throws newestVersionsArr newestVersionsArr 0 allPluginsInfo)
      as (all' & msg & Hrun); [lia|simpl; lia|].
    simpl in Hrun. exists msg. unfold augment.
    replace (imap pair newestVersionsArr)
      with (imap (fun (i : nat) (x : string) => (i, x)) newestVersionsArr)
      by (apply imap_ext; reflexivity).
    rewrite Hrun. reflexivity.
Qed.

(** X15 on the sample records: one version for two records fills the
    first; three versions for two records throw. *)
Lemma X15_witness_sample_records :
  (length ["1.2.0"] <= length sample_records)%nat
  /\ augment sample_records ["1.2.0"] =
       inr [set_newestVersion (Some "1.2.0") foo_record;
            set_expectedVersion (Some "2.0.0") (set_newestVersion None bar_record)]
  /\ (length sample_records < length ["1.2.0"; "2.5.0"; "3.0.0"])%nat
  /\ exists msg, augment sample_records ["1.2.0"; "2.5.0"; "3.0.0"] = inl (TypeError msg).
Proof.
  split; [simpl; lia|]. split; [reflexivity|]. split; [simpl; lia|].
  apply (proj2 (X15_augment_by_position sample_records ["1.2.0"; "2.5.0"; "3.0.0"])).
  simpl. lia.
Defined.

(** ** An error of the reconciler *)



(** ** A declared id that differs from the name *)

(** X17: a declaration with a non-empty [id] that differs from its parsed
    name gives a record for which the reconciler pushes the name-mismatch
    warning, naming the parsed name and the [id], after the version-mismatch
    warning if there is one, and shows the name followed by the [id] in
    parentheses. *)
Theorem X17_distinct_id_is_warned_and_shown
  (disk : Disk) (ROOT : string) (semver : Semver.lib) (d : declaration) (id : string)
  (r : PluginRecord) (newest : value) (st : arrays) :
  decl_id d = Some id ->
  id <> "" ->
  id <> parsedName d ->
  readPlugin disk ROOT d = inr r ->
  warnings (fst (processPlugin semver (set_newestVersion newest r) st)) =
    warnings st
    ++ (if versions_differ r
        then [warning1 (parsedName d) (the (installedVersionJson r))
                (the (installedVersionXml r))]
        else [])
    ++ [warning2 (parsedName d) id]
  /\ match processPlugin semver (set_newestVersion newest r) st with
     | (st', inr _) =>
         exists e i n,
           table st' = table st ++ [[Plain (parsedName d +:+ " (" +:+ id +:+ ")"); e; i; n]]
     | (st', inl _) => table st' = table st
     end.
Proof.
  intros Hid Hne Hdiff Hread.
  pose proof (readPlugin_outcome disk ROOT d) as H. rewrite Hread in H.
  destruct H as (Hn & Hf & _).
  assert (Hfolder : pluginFolder r = id).
  { rewrite Hf. unfold folderOf. rewrite Hid. simpl.
    destruct (String.eqb_spec id ""); [contradiction|reflexivity]. }
  assert (Hnd : names_differ (set_newestVersion newest r) = true).
  { unfold names_differ. simpl. apply bool_decide_eq_true. rewrite Hn, Hfolder.
    intros Heq. apply Hdiff. symmetry. exact Heq. }
  assert (Hw : recordWarnings (set_newestVersion newest r) =
               (if versions_differ r
                then [warning1 (parsedName d) (the (installedVersionJson r))
                        (the (installedVersionXml r))]
                else [])
               ++ [warning2 (parsedName d) id]).
  { unfold recordWarnings. rewrite Hnd. unfold version_warning, name_warning. simpl.
    rewrite Hn, Hfolder. reflexivity. }
  pose proof (processPlugin_outcome semver (set_newestVersion newest r) st) as Hp.
  destruct (processPlugin semver (set_newestVersion newest r) st) as [st' [e|[]]]; simpl.
  - destruct Hp as (_ & Ht & Hws). rewrite Hws, Hw. split; [reflexivity|exact Ht].
  - destruct Hp as (row & Hrow & Ht & Hws). rewrite Hws, Hw. split; [reflexivity|].
    unfold cells, displayName in Hrow. rewrite Hnd in Hrow. simpl in Hrow.
    rewrite Hn, Hfolder in Hrow.
    unfold mbind, result_bind, mret, result_ret in Hrow.
    destruct (newestCell semver _) as [?|n]; [discriminate|].
    destruct (constraintCells semver _) as [?|[i e]]; [discriminate|].
    injection Hrow as <-. do 3 eexists. exact Ht.
Qed.

(** X17 at the declaration of [bar] with the id [bar-id]. *)
Lemma X17_witness_bar :
  decl_id bar_object = Some "bar-id"
  /\ "bar-id" <> parsedName bar_object
  /\ warnings (fst (processPlugin SemverRef.lib
                      (set_newestVersion (Some "2.5.0")
                         (set_expectedVersion (Some "2.0.0")
                            (set_newestVersion None bar_record)))
                      no_arrays)) =
     [] ++ [warning1 (parsedName bar_object) "2.5.0" "2.0.0"]
        ++ [warning2 (parsedName bar_object) "bar-id"].
Proof.
  split; [reflexivity|]. split; [discriminate|].
  apply (X17_distinct_id_is_warned_and_shown Sample.disk Sample.ROOT SemverRef.lib
           bar_object "bar-id"
           (set_expectedVersion (Some "2.0.0") (set_newestVersion None bar_record))
           (Some "2.5.0") no_arrays);
    try reflexivity; discriminate.
Defined.
